(** * Text-annotation overlay of the prompt viewer

    A shallow embedding of the comment/highlight logic of the
    [OptimizedPrompt] React component (the component mounted by
    [PromptOptimizer.jsx], with [comments]/[setComments] props), of its
    [CommentBox] child, and of the older stand-alone
    [frontend/components/OptimizedPrompt.js] with its [CommentPopover].

    - JavaScript strings are sequences of UTF-16 code units: [list N].
    - DOM offsets ([Range.startOffset], [Range.endOffset]) and string
      indices are non-negative integers: [nat].
    - React state is threaded explicitly: every handler is a function from
      the component state (and the part of the browser it reads: the live
      selection, the server's answer, the clock) to the next state. *)

From Stdlib Require Import String Ascii.
From Stdlib Require Import List Arith Bool Lia NArith ZArith.
From Stdlib Require Import Permutation Sorted.
Import ListNotations.

Set Implicit Arguments.

(** ** JavaScript strings *)

Module JsString.

Definition code_unit := N.
Definition jsstring := list code_unit.

(** A string literal of the source, as code units (ASCII literals only). *)
Definition utf16 (s : string) : jsstring :=
  map N_of_ascii (list_ascii_of_string s).

(** [s.slice(start, end)] for non-negative integer arguments: both indices
    are clamped to the length and an inverted pair gives the empty string. *)
Definition slice (s : jsstring) (start end_ : nat) : jsstring :=
  firstn (end_ - start) (skipn start s).

(** [s.slice(start)]. *)
Definition slice_from (s : jsstring) (start : nat) : jsstring :=
  skipn start s.

(** ECMAScript WhiteSpace and LineTerminator code points, all of them in
    the basic plane: what [String.prototype.trim] strips. *)
Definition is_whitespace (c : code_unit) : bool :=
  (  (c =? 9) || (c =? 10) || (c =? 11) || (c =? 12) || (c =? 13)
  || (c =? 32) || (c =? 160) || (c =? 5760)
  || ((8192 <=? c) && (c <=? 8202))
  || (c =? 8232) || (c =? 8233) || (c =? 8239) || (c =? 8287)
  || (c =? 12288) || (c =? 65279))%N.

Fixpoint trimStart (s : jsstring) : jsstring :=
  match s with
  | [] => []
  | c :: rest => if is_whitespace c then trimStart rest else s
  end.

Definition trimEnd (s : jsstring) : jsstring :=
  rev (trimStart (rev s)).

(** [s.trim()]. *)
Definition trim (s : jsstring) : jsstring :=
  trimEnd (trimStart s).

(** Truthiness of a string: the empty string is the only falsy one. *)
Definition truthy (s : jsstring) : bool :=
  match s with [] => false | _ :: _ => true end.

(** [a || b] on strings that may be [undefined]. *)
Definition or_default (a : option jsstring) (b : jsstring) : jsstring :=
  match a with
  | Some s => if truthy s then s else b
  | None => b
  end.

End JsString.
Import JsString.

(** ** Comments (annotations) *)

Definition comment_id := N.

(** The object built in [handleCommentSubmit] and kept in the [comments]
    array. *)
Record Comment := mkComment {
  id : comment_id;
  text : jsstring;
  startOffset : nat;
  endOffset : nat;
  comment : jsstring;
  created_at : jsstring
}.

(** ** [Array.prototype.sort] with a numeric-key comparator

    [[...xs].sort((a, b) => key(a) - key(b))] is a stable sort by ascending
    key: elements with equal keys keep their relative order. *)

Section StableSort.
Variable A : Type.
Variable key : A -> nat.

Fixpoint insert_asc (x : A) (l : list A) : list A :=
  match l with
  | [] => [x]
  | y :: l' => if key x <=? key y then x :: l else y :: insert_asc x l'
  end.

Fixpoint sort_asc (l : list A) : list A :=
  match l with
  | [] => []
  | x :: l' => insert_asc x (sort_asc l')
  end.

(** The comparator [(a, b) => key(b) - key(a)]: descending, stable. *)
Fixpoint insert_desc (x : A) (l : list A) : list A :=
  match l with
  | [] => [x]
  | y :: l' => if key y <=? key x then x :: l else y :: insert_desc x l'
  end.

Fixpoint sort_desc (l : list A) : list A :=
  match l with
  | [] => []
  | x :: l' => insert_desc x (sort_desc l')
  end.

(** Order of two elements by their keys. *)
Definition le_key (a b : A) : Prop := key a <= key b.
End StableSort.

(** ** The renderer of the mounted component: [renderTextWithHighlights] *)

Inductive span_key :=
| KeyText (index : nat)      (* key={`text-${index}`} *)
| KeyEnd                     (* key="text-end" *)
| KeyId (i : comment_id).    (* key={comment.id} *)

(** A [<span>] pushed on [pieces]: a plain run, or a highlighted run whose
    hover handler shows [comment.comment]. *)
Inductive piece :=
| PlainSpan (key : span_key) (content : jsstring)
| HighlightSpan (key : span_key) (tooltip : jsstring) (content : jsstring).

(** What the function returns: the bare string when there is no comment,
    the array [pieces] otherwise. *)
Inductive rendered :=
| RText (s : jsstring)
| RPieces (pieces : list piece).

Section Renderer.
Variable optimizedText : jsstring.

(** The body of [sortedComments.forEach((comment, index) => ...)], with
    the two variables it updates: [pieces] and [lastIndex]. *)
Fixpoint forEach_comment (cs : list Comment) (index : nat)
         (pieces : list piece) (lastIndex : nat) : list piece * nat :=
  match cs with
  | [] => (pieces, lastIndex)
  | c :: rest =>
      let pieces1 :=
        if lastIndex <? startOffset c
        then pieces ++ [PlainSpan (KeyText index)
                          (slice optimizedText lastIndex (startOffset c))]
        else pieces in
      let pieces2 :=
        pieces1 ++ [HighlightSpan (KeyId (id c)) (comment c)
                      (slice optimizedText (startOffset c) (endOffset c))] in
      forEach_comment rest (S index) pieces2 (endOffset c)
  end.

(** [[...comments].sort((a, b) => a.startOffset - b.startOffset)]: the
    sequence the renderer iterates. *)
Definition sortedComments (comments : list Comment) : list Comment :=
  sort_asc startOffset comments.

Definition renderTextWithHighlights (comments : list Comment) : rendered :=
  match comments with
  | [] => RText optimizedText
  | _ :: _ =>
      let '(pieces, lastIndex) :=
        forEach_comment (sortedComments comments) 0 [] 0 in
      RPieces
        (if lastIndex <? length optimizedText
         then pieces ++ [PlainSpan KeyEnd (slice_from optimizedText lastIndex)]
         else pieces)
  end.
End Renderer.

(** ** Segments: the renderer's output read as plain/highlighted runs *)

Inductive segment_kind := Plain | Highlighted.

Record Segment := mkSegment {
  kind : segment_kind;
  seg_text : jsstring;
  annotationId : option comment_id
}.

Definition key_id (k : span_key) : option comment_id :=
  match k with KeyId i => Some i | _ => None end.

Definition segment_of_piece (p : piece) : Segment :=
  match p with
  | PlainSpan _ s => mkSegment Plain s None
  | HighlightSpan k _ s => mkSegment Highlighted s (key_id k)
  end.

(** The children React mounts for the returned value: one span per piece;
    a bare string is one run of plain text, and the empty string mounts
    nothing. *)
Definition segments (r : rendered) : list Segment :=
  match r with
  | RText [] => []
  | RText s => [mkSegment Plain s None]
  | RPieces ps => map segment_of_piece ps
  end.

Definition concat_segments (segs : list Segment) : jsstring :=
  concat (map seg_text segs).

(** ** The rendered text and the live selection

    The spans of [pieces] each hold one text node (none when their string is
    empty); a bare string is a single text node.  A DOM [Range] made by
    selecting text has both boundary points in text nodes: a container is
    given by its position among the text nodes in document order, an offset
    counts code units inside that node. *)

Module Dom.
Record Rect := mkRect { left : Z; top : Z; right : Z; bottom : Z }.

Record Range := mkRange {
  startContainer : nat;
  startOffset : nat;
  endContainer : nat;
  endOffset : nat;
  getBoundingClientRect : Rect
}.

(** [window.getSelection()]: [None] when [rangeCount] is 0. *)
Definition Selection := option Range.
End Dom.

Definition piece_content (p : piece) : jsstring :=
  match p with
  | PlainSpan _ s => s
  | HighlightSpan _ _ s => s
  end.

Definition text_nodes (r : rendered) : list jsstring :=
  match r with
  | RText s => filter truthy [s]
  | RPieces ps => filter truthy (map piece_content ps)
  end.

(** The text between the two boundary points of a range. *)
Definition range_toString (nodes : list jsstring) (r : Dom.Range) : jsstring :=
  let sc := Dom.startContainer r in
  let ec := Dom.endContainer r in
  if sc =? ec then slice (nth sc nodes []) (Dom.startOffset r) (Dom.endOffset r)
  else if sc <? ec then
    slice_from (nth sc nodes []) (Dom.startOffset r)
    ++ concat (firstn (ec - S sc) (skipn (S sc) nodes))
    ++ slice (nth ec nodes []) 0 (Dom.endOffset r)
  else [].

(** [selection.toString()]. *)
Definition selection_toString (nodes : list jsstring) (sel : Dom.Selection)
  : jsstring :=
  match sel with
  | None => []
  | Some r => range_toString nodes r
  end.

(** A range is collapsed when its two boundary points coincide. *)
Definition collapsed (r : Dom.Range) : Prop :=
  Dom.startContainer r = Dom.endContainer r /\
  Dom.startOffset r = Dom.endOffset r.

(** ** State of the mounted [OptimizedPrompt] component *)

Module SelectedRange.
(** The object passed to [setSelectedRange] / [setSelectedText]. *)
Record t := mk { text : jsstring; startOffset : nat; endOffset : nat }.
End SelectedRange.

Record Position := mkPosition { pos_x : Z; pos_y : Z }.

Record Hovered := mkHovered { hov_comment : jsstring; hov_position : Position }.

Record State := mkState {
  comments : list Comment;                      (* prop, owned by the parent *)
  showCommentBox : bool;
  commentPosition : Position;
  selectedRange : option SelectedRange.t;
  hoveredComment : option Hovered
}.

Definition initialState : State :=
  mkState [] false (mkPosition 0 0) None None.

Definition setShowCommentBox (b : bool) (st : State) : State :=
  mkState (comments st) b (commentPosition st) (selectedRange st)
          (hoveredComment st).

Definition setCommentPosition (p : Position) (st : State) : State :=
  mkState (comments st) (showCommentBox st) p (selectedRange st)
          (hoveredComment st).

Definition setSelectedRange (r : option SelectedRange.t) (st : State) : State :=
  mkState (comments st) (showCommentBox st) (commentPosition st) r
          (hoveredComment st).

Definition setComments (f : list Comment -> list Comment) (st : State) : State :=
  mkState (f (comments st)) (showCommentBox st) (commentPosition st)
          (selectedRange st) (hoveredComment st).

Definition setHoveredComment (h : option Hovered) (st : State) : State :=
  mkState (comments st) (showCommentBox st) (commentPosition st)
          (selectedRange st) h.

(** [handleSelection], run on mouse-up over the rendered text.  With no
    range in the selection [toString()] is the empty string, so
    [getRangeAt(0)] is only reached with a range. *)
Definition handleSelection (nodes : list jsstring) (selection : Dom.Selection)
           (st : State) : State :=
  let selectedText := trim (selection_toString nodes selection) in
  match selection with
  | None => setShowCommentBox false st
  | Some range =>
      if negb (truthy selectedText) then setShowCommentBox false st
      else
        let rect := Dom.getBoundingClientRect range in
        let x := Dom.right rect in
        let y := Dom.top rect in
        setShowCommentBox true
          (setSelectedRange
             (Some (SelectedRange.mk selectedText
                      (Dom.startOffset range) (Dom.endOffset range)))
             (setCommentPosition (mkPosition x y) st))
  end.

(** What the awaited [fetch] / [response.json()] of [handleCommentSubmit]
    gives back: a thrown error, or a response with its [ok] flag and the
    fields of its JSON body that the handler reads. *)
Record ResponseData := mkData {
  data_error : option jsstring;       (* data.error *)
  data_success : bool;                (* data.success, as a truth value *)
  data_comment : option comment_id    (* data.comment, by its id *)
}.

Inductive fetch_result :=
| Thrown (message : jsstring)
| Response (ok : bool) (data : ResponseData).

(** What one run of [handleCommentSubmit] reads from outside the component:
    the server's answer, the clock ([new Date().toISOString()]) and the
    message the engine puts in a [TypeError]. *)
Record Env := mkEnv {
  fetched : fetch_result;
  now : jsstring;
  typeError : jsstring
}.

(** How the [try] block ends: a new comment handed to [setComments],
    nothing done (a response without [success]), or an error thrown. *)
Inductive attempt :=
| Added (newComment : Comment)
| NotAdded
| Threw (message : jsstring).

Definition try_submit (env : Env) (selectedRange : option SelectedRange.t)
           (commentText : jsstring) : attempt :=
  match selectedRange with
  | None => Threw (typeError env)            (* selectedRange.text on null *)
  | Some sel =>
      match fetched env with
      | Thrown message => Threw message
      | Response ok data =>
          if negb ok
          then Threw (or_default (data_error data)
                                 (utf16 "Failed to save feedback"))
          else if data_success data then
            match data_comment data with
            | None => Threw (typeError env)  (* data.comment.id on undefined *)
            | Some i =>
                Added (mkComment i (SelectedRange.text sel)
                                 (SelectedRange.startOffset sel)
                                 (SelectedRange.endOffset sel)
                                 commentText (now env))
            end
          else NotAdded
      end
  end.

(** [handleCommentSubmit]: the next state and the [alert] shown, if any.
    The two statements after the [try]/[catch] run on every path; the
    selection is cleared ([removeAllRanges]) on every path too. *)
Definition handleCommentSubmit (env : Env) (commentText : jsstring)
           (st : State) : State * option jsstring :=
  let '(st1, alerted) :=
    match try_submit env (selectedRange st) commentText with
    | Added newComment =>
        (setComments (fun prev => prev ++ [newComment]) st, None)
    | NotAdded => (st, None)
    | Threw message =>
        (st, Some (utf16 "Failed to save feedback: " ++ message))
    end in
  (setShowCommentBox false st1, alerted).

(** ** [CommentBox] *)

(** [CommentBox.handleSubmit] on the typed [comment]: the text handed to
    [onSubmit] (if any) and the next value of the text area. *)
Definition CommentBox_handleSubmit (comment : jsstring)
  : option jsstring * jsstring :=
  if truthy (trim comment) then (Some comment, []) else (None, comment).

(** The comment box together with its parent: a submit gesture on the box
    showing [draft].  Gives the parent's next state, the box's next text
    and the alert shown. *)
Definition submit_gesture (env : Env) (draft : jsstring) (st : State)
  : State * jsstring * option jsstring :=
  match CommentBox_handleSubmit draft with
  | (Some commentText, draft') =>
      let '(st', alerted) := handleCommentSubmit env commentText st in
      (st', draft', alerted)
  | (None, draft') => (st, draft', None)
  end.

(** [onCancel] of the box. *)
Definition cancel_gesture (st : State) : State := setShowCommentBox false st.

(** ** Sessions: sequences of user gestures on the mounted component *)

Inductive gesture :=
| MouseUp (selection : Dom.Selection)        (* onMouseUp={handleSelection} *)
| Submit (env : Env) (typed : jsstring)      (* type, then press Add *)
| Cancel.                                    (* press Cancel *)

Definition step (optimizedText : jsstring) (st : State) (g : gesture) : State :=
  match g with
  | MouseUp selection =>
      handleSelection
        (text_nodes (renderTextWithHighlights optimizedText (comments st)))
        selection st
  | Submit env typed =>
      if showCommentBox st
      then fst (fst (submit_gesture env typed st))
      else st                                  (* no box, nothing to press *)
  | Cancel => cancel_gesture st
  end.

Definition run (optimizedText : jsstring) (gs : list gesture) (st : State)
  : State :=
  fold_left (step optimizedText) gs st.

(** ** The renderer as the specification words it

    Second definition, written from the specification's description of the
    algorithm and not from the code: a cursor starting at 0; for each
    annotation in order, a Plain segment for [sourceText[cursor:start]] when
    [start > cursor], a Highlighted segment for [sourceText[start:end]]
    tagged with the annotation's id, the cursor moved to [end]; after the
    loop a Plain segment for the remainder when [cursor < length]. *)

Section SpecRenderer.
Variable sourceText : jsstring.

Fixpoint spec_scan (annotations : list Comment) (cursor : nat)
  : list Segment :=
  match annotations with
  | [] =>
      if cursor <? length sourceText
      then [mkSegment Plain (slice_from sourceText cursor) None]
      else []
  | a :: rest =>
      (if cursor <? startOffset a
       then [mkSegment Plain (slice sourceText cursor (startOffset a)) None]
       else [])
      ++ mkSegment Highlighted
           (slice sourceText (startOffset a) (endOffset a)) (Some (id a))
      :: spec_scan rest (endOffset a)
  end.

Definition spec_render (annotations : list Comment) : list Segment :=
  spec_scan annotations 0.
End SpecRenderer.

(** The offset walk as the specification words it: the lengths of the
    rendered runs before the boundary's node, plus the offset inside it. *)
Definition spec_absolute_offset (nodes : list jsstring) (container offset : nat)
  : nat :=
  length (concat (firstn container nodes)) + offset.

(** Two half-open ranges intersect. *)
Definition intersects (a b : Comment) : Prop :=
  startOffset a < endOffset b /\ startOffset b < endOffset a.

(** The offset invariant of a range over a text. *)
Definition valid_range (sourceText : jsstring) (a : Comment) : Prop :=
  startOffset a < endOffset a /\ endOffset a <= length sourceText.

(** A valid annotation set: ranges within the text, pairwise non-overlapping. *)
Definition valid_annotations (sourceText : jsstring) (l : list Comment) : Prop :=
  Forall (valid_range sourceText) l /\
  ForallOrdPairs (fun a b => ~ intersects a b) l.

Definition ascending (l : list Comment) : Prop :=
  StronglySorted (le_key startOffset) l.

(** A cursor and a list of ranges that follow one another without gap
    going backwards: what an ascending, non-overlapping list is to the scan. *)
Inductive chained : nat -> list Comment -> Prop :=
| chained_nil cursor : chained cursor []
| chained_cons cursor a rest :
    cursor <= startOffset a -> startOffset a <= endOffset a ->
    chained (endOffset a) rest -> chained cursor (a :: rest).

(** The statements after the [forEach]: the trailing plain span. *)
Definition finish (optimizedText : jsstring) (r : list piece * nat)
  : list piece :=
  if snd r <? length optimizedText
  then fst r ++ [PlainSpan KeyEnd (slice_from optimizedText (snd r))]
  else fst r.

(** ** The older stand-alone component, [frontend/components/OptimizedPrompt.js] *)

Module Legacy.

Record Comment := mkComment {
  text : jsstring;
  startOffset : nat;
  endOffset : nat;
  comment : jsstring;
  id : N                                   (* Date.now() *)
}.

Record State := mkState {
  comments : list Comment;
  selectedText : option SelectedRange.t;
  showCommentPopover : bool;
  popoverPosition : Position
}.

Definition initialState : State := mkState [] None false (mkPosition 0 0).

(** [handleTextSelection]; [containerRect] is the container's bounding
    rectangle. *)
Definition handleTextSelection (nodes : list jsstring)
           (selection : Dom.Selection) (containerRect : Dom.Rect)
           (st : State) : State :=
  match selection with
  | None => st
  | Some range =>
      if 0 <? length (selection_toString nodes selection) then
        let rect := Dom.getBoundingClientRect range in
        mkState (comments st)
          (Some (SelectedRange.mk (selection_toString nodes selection)
                   (Dom.startOffset range) (Dom.endOffset range)))
          true
          (mkPosition (Dom.left rect - Dom.left containerRect)
                      (Dom.bottom rect - Dom.top containerRect + 10))
      else st
  end.

(** [handleSaveComment]; [dateNow] is [Date.now()]. *)
Definition handleSaveComment (dateNow : N) (commentText : jsstring)
           (st : State) : State :=
  let comments' :=
    match selectedText st with
    | Some sel =>
        comments st
        ++ [mkComment (SelectedRange.text sel) (SelectedRange.startOffset sel)
              (SelectedRange.endOffset sel) commentText dateNow]
    | None => comments st
    end in
  mkState comments' None (showCommentPopover st) (popoverPosition st).

(** [CommentPopover.handleSave]: [onSave(comment)] then [onClose()]. *)
Definition handleSave (dateNow : N) (comment : jsstring) (st : State)
  : State :=
  let st' := handleSaveComment dateNow comment st in
  mkState (comments st') (selectedText st') false (popoverPosition st').

(** The value of [result]: the string, or the fragment
    [<>{before}<span>{highlighted}<span>{comment}</span></span>{after}</>]. *)
Inductive element :=
| Str (s : jsstring)
| Fragment (before highlighted tooltip after : jsstring).

(** One iteration of the [forEach]: [result.slice] exists on a string only;
    on a React element the call throws a [TypeError] ([None]). *)
Definition wrap (result : element) (c : Comment) : option element :=
  match result with
  | Str s =>
      Some (Fragment (slice s 0 (startOffset c))
                     (slice s (startOffset c) (endOffset c))
                     (comment c)
                     (slice_from s (endOffset c)))
  | Fragment _ _ _ _ => None
  end.

Fixpoint forEach_wrap (cs : list Comment) (result : element)
  : option element :=
  match cs with
  | [] => Some result
  | c :: rest =>
      match wrap result c with
      | Some result' => forEach_wrap rest result'
      | None => None
      end
  end.

Definition renderTextWithComments (optimizedText : jsstring)
           (comments : list Comment) : option element :=
  forEach_wrap (sort_desc startOffset comments) (Str optimizedText).

End Legacy.

(** ** What the segments of a rendering can depend on *)

(** The part of a comment the segment sequence reads. *)
Definition core (c : Comment) : comment_id * nat * nat :=
  (id c, startOffset c, endOffset c).

(** Renaming the ids of comments, and of the tags of segments. *)
Definition retag (f : comment_id -> comment_id) (c : Comment) : Comment :=
  mkComment (f (id c)) (text c) (startOffset c) (endOffset c) (comment c)
            (created_at c).

Definition retag_segment (f : comment_id -> comment_id) (s : Segment)
  : Segment :=
  mkSegment (kind s) (seg_text s) (option_map f (annotationId s)).

(** An empty selection: no range, a collapsed range, or a range over no
    text. *)
Definition empty_selection (nodes : list jsstring) (sel : Dom.Selection)
  : Prop :=
  match sel with
  | None => True
  | Some r => collapsed r \/ range_toString nodes r = []
  end.

(** ** Scenarios *)

Module Scenario.
Definition fox : jsstring := utf16 "The quick brown fox".
Definition alphabet : jsstring := utf16 "abcdefghij".
Definition stamp : jsstring := utf16 "2025-01-01T00:00:00.000Z".

Definition quick : Comment :=
  mkComment 1%N (utf16 "quick") 4 9 (utf16 "adj") stamp.
Definition brown : Comment :=
  mkComment 2%N (utf16 "brown") 10 15 (utf16 "color") stamp.
Definition ck_brow : Comment :=
  mkComment 2%N (utf16 "ck brow") 6 12 (utf16 "noun") stamp.
Definition cde : Comment :=
  mkComment 1%N (utf16 "cde") 2 5 (utf16 "middle") stamp.

Definition rect : Dom.Rect := Dom.mkRect 40 20 80 36.

(** "fgh" picked inside the third text node of "ab|cde|fghij". *)
Definition select_fgh : Dom.Range := Dom.mkRange 2 0 2 3 rect.
(** "bc" picked from the first text node into the second. *)
Definition select_bc : Dom.Range := Dom.mkRange 0 1 1 1 rect.
(** Three blanks: the text node " brown fox" has none, "a   b" has. *)
Definition select_blanks : Dom.Range := Dom.mkRange 0 1 0 4 rect.
(** A caret: both boundary points at offset 2 of the first node. *)
Definition caret : Dom.Range := Dom.mkRange 0 2 0 2 rect.

(** The server stores the comment and answers with its id. *)
Definition accepted (i : comment_id) : Env :=
  mkEnv (Response true (mkData None true (Some i))) stamp (utf16 "TypeError").
(** The server refuses with a message. *)
Definition refused (message : jsstring) : Env :=
  mkEnv (Response false (mkData (Some message) false None)) stamp
        (utf16 "TypeError").

(** The comment box is open on a candidate selection. *)
Definition editing (cs : list Comment) (sel : SelectedRange.t) : State :=
  mkState cs true (mkPosition 80 20) (Some sel) None.
End Scenario.

(** ** Reading the pieces of a rendering *)

Definition pieces_of (r : rendered) : list piece :=
  match r with
  | RText _ => []
  | RPieces ps => ps
  end.

Definition piece_key (p : piece) : span_key :=
  match p with
  | PlainSpan k _ => k
  | HighlightSpan k _ _ => k
  end.

(** The highlighted spans of a piece list, in order: React key, text shown
    on hover, text highlighted. *)
Fixpoint highlight_spans (ps : list piece)
  : list (span_key * jsstring * jsstring) :=
  match ps with
  | [] => []
  | PlainSpan _ _ :: rest => highlight_spans rest
  | HighlightSpan k tooltip s :: rest => (k, tooltip, s) :: highlight_spans rest
  end.

(** The highlighted span [renderTextWithHighlights] pushes for a comment. *)
Definition highlight_of (optimizedText : jsstring) (c : Comment)
  : span_key * jsstring * jsstring :=
  (KeyId (id c), comment c,
   slice optimizedText (startOffset c) (endOffset c)).

(** A range as the browser makes it over the given text nodes: both
    containers are text nodes of the list and each offset is within its
    node. *)
Definition range_within (nodes : list jsstring) (r : Dom.Range) : Prop :=
  Dom.startContainer r < length nodes /\
  Dom.endContainer r < length nodes /\
  Dom.startOffset r <= length (nth (Dom.startContainer r) nodes []) /\
  Dom.endOffset r <= length (nth (Dom.endContainer r) nodes []).

(** A session whose selections are all ranges over the text nodes shown at
    the time of the gesture. *)
Fixpoint session_within (optimizedText : jsstring) (gs : list gesture)
         (st : State) : Prop :=
  match gs with
  | [] => True
  | g :: rest =>
      match g with
      | MouseUp (Some r) =>
          range_within
            (text_nodes (renderTextWithHighlights optimizedText (comments st)))
            r
      | _ => True
      end
      /\ session_within optimizedText rest (step optimizedText st g)
  end.

(** What holds of the candidate selection at every point of a session. *)
Definition candidate_ok (st : State) : Prop :=
  match selectedRange st with
  | None => showCommentBox st = false
  | Some sel => SelectedRange.text sel <> []
  end.

(** A comment as a session commits it: some text was selected and the
    comment typed is not blank. *)
Definition comment_ok (c : Comment) : Prop :=
  text c <> [] /\ truthy (trim (comment c)) = true.

(** Offsets that do not pass the end of the text. *)
Definition offsets_within (optimizedText : jsstring) (c : Comment) : Prop :=
  startOffset c <= length optimizedText /\
  endOffset c <= length optimizedText.

Definition candidate_within (optimizedText : jsstring) (st : State) : Prop :=
  match selectedRange st with
  | None => True
  | Some sel =>
      SelectedRange.startOffset sel <= length optimizedText /\
      SelectedRange.endOffset sel <= length optimizedText
  end.

(** ** The page: [PromptOptimizer] *)

Module PromptOptimizer.

(** [data.metrics]: the two scores, shown as they come. *)
Record Metrics := mkMetrics {
  initial_prompt_score : Z;
  optimized_prompt_score : Z
}.

(** The fields the handlers read in the JSON body of an answer.  [result]
    is [Some] exactly when [typeof data.result === 'string']. *)
Record Data := mkData {
  data_error : option jsstring;
  result : option jsstring;
  session_id : option jsstring;
  metrics : option Metrics
}.

(** What [await fetch(...)] followed by [await response.json()] gives: an
    error thrown, or the parsed body ([None] when it is [null]). *)
Inductive fetched :=
| Thrown (message : jsstring)
| Json (data : option Data).

(** What the request of [handleDownloadLog] gives: an error thrown, an
    answer that is not [ok] with the [error] field of its body, or the log
    as a blob. *)
Inductive downloaded :=
| DownloadThrown (message : jsstring)
| DownloadRefused (errorData_error : option jsstring)
| DownloadBlob (blob : list N).

Record State := mkState {
  input : jsstring;
  optimizedPrompt : jsstring;
  isLoading : bool;
  sessionId : option jsstring;
  error : option jsstring;
  comments : list Comment;
  response : option Data
}.

Definition initialState : State := mkState [] [] false None None [] None.

Definition setInput (v : jsstring) (st : State) : State :=
  mkState v (optimizedPrompt st) (isLoading st) (sessionId st) (error st)
          (comments st) (response st).

Definition setOptimizedPrompt (v : jsstring) (st : State) : State :=
  mkState (input st) v (isLoading st) (sessionId st) (error st)
          (comments st) (response st).

Definition setIsLoading (v : bool) (st : State) : State :=
  mkState (input st) (optimizedPrompt st) v (sessionId st) (error st)
          (comments st) (response st).

Definition setSessionId (v : option jsstring) (st : State) : State :=
  mkState (input st) (optimizedPrompt st) (isLoading st) v (error st)
          (comments st) (response st).

Definition setError (v : option jsstring) (st : State) : State :=
  mkState (input st) (optimizedPrompt st) (isLoading st) (sessionId st) v
          (comments st) (response st).

Definition setComments (f : list Comment -> list Comment) (st : State) : State :=
  mkState (input st) (optimizedPrompt st) (isLoading st) (sessionId st)
          (error st) (f (comments st)) (response st).

Definition setResponse (v : option Data) (st : State) : State :=
  mkState (input st) (optimizedPrompt st) (isLoading st) (sessionId st)
          (error st) (comments st) v.

(** Truthiness of a string field that may be missing. *)
Definition present (o : option jsstring) : bool :=
  match o with
  | Some s => truthy s
  | None => false
  end.

(** [clearComments]; it also empties the browser's selection. *)
Definition clearComments (st : State) : State :=
  setComments (fun _ => []) st.

Definition startNewSession (st : State) : State :=
  clearComments
    (setResponse None
       (setError None
          (setSessionId None
             (setOptimizedPrompt [] (setInput [] st))))).

(** The updates [handleOptimize] makes from a body that carries no error. *)
Definition accept_optimized (data : Data) (st : State) : State :=
  let st1 :=
    match result data with
    | Some r => setOptimizedPrompt r st
    | None => st
    end in
  let st2 :=
    if present (session_id data) then setSessionId (session_id data) st1
    else st1 in
  let st3 :=
    match metrics data with
    | Some _ => setResponse (Some data) st2
    | None => st2
    end in
  clearComments (setError None st3).

Definition handleOptimize (answer : fetched) (st : State) : State :=
  let st0 := setIsLoading true st in
  let st1 :=
    match answer with
    | Thrown message => setError (Some message) st0
    | Json None =>
        setError (Some (utf16 "No data received from server")) st0
    | Json (Some data) =>
        if present (data_error data)
        then setError (data_error data) st0
        else accept_optimized data st0
    end in
  setIsLoading false st1.

(** The updates [handleOptimizeWithFeedback] makes from a body that carries
    no error. *)
Definition accept_feedback (data : Data) (st : State) : State :=
  let st1 :=
    match result data with
    | Some r => setOptimizedPrompt r st
    | None => st
    end in
  let st2 :=
    match metrics data with
    | Some _ => setResponse (Some data) st1
    | None => st1
    end in
  setError None (clearComments st2).

(** [typeError] is the message of the [TypeError] that reading [data.error]
    on a [null] body throws. *)
Definition handleOptimizeWithFeedback (typeError : jsstring)
           (answer : fetched) (st : State) : State :=
  if negb (present (sessionId st)) then
    setError
      (Some (utf16 "No active optimization session. Please optimize first."))
      st
  else
    let st0 := setIsLoading true st in
    let st1 :=
      match answer with
      | Thrown message => setError (Some message) st0
      | Json None => setError (Some typeError) st0
      | Json (Some data) =>
          if present (data_error data)
          then setError (data_error data) st0
          else accept_feedback data st0
      end in
    setIsLoading false st1.

(** The file a click on the hidden link saves: its name and content. *)
Definition log_name (session : jsstring) : jsstring :=
  utf16 "session_" ++ session ++ utf16 "_log.txt".

Definition handleDownloadLog (answer : downloaded) (st : State)
  : State * option (jsstring * list N) :=
  match sessionId st with
  | Some session =>
      if truthy session then
        match answer with
        | DownloadThrown message => (setError (Some message) st, None)
        | DownloadRefused e =>
            (setError
               (Some (or_default e (utf16 "Failed to download session log")))
               st,
             None)
        | DownloadBlob blob => (st, Some (log_name session, blob))
        end
      else
        (setError (Some (utf16 "No active session to download logs from.")) st,
         None)
  | None =>
      (setError (Some (utf16 "No active session to download logs from.")) st,
       None)
  end.

(** What the page shows. *)
Definition shows_prompt (st : State) : bool := truthy (optimizedPrompt st).
Definition shows_session_buttons (st : State) : bool := present (sessionId st).

(** Things that happen to the page: typing in the input, the buttons, and a
    comment committed by the mounted [OptimizedPrompt] through the
    [setComments] it is given. *)
Inductive event :=
| TypeInput (v : jsstring)
| Optimize (answer : fetched)
| OptimizeWithFeedback (typeError : jsstring) (answer : fetched)
| DownloadLog (answer : downloaded)
| NewSession
| CommentAdded (newComment : Comment).

Definition step (st : State) (e : event) : State :=
  match e with
  | TypeInput v => setInput v st
  | Optimize answer => handleOptimize answer st
  | OptimizeWithFeedback typeError answer =>
      handleOptimizeWithFeedback typeError answer st
  | DownloadLog answer => fst (handleDownloadLog answer st)
  | NewSession => startNewSession st
  | CommentAdded newComment =>
      if shows_prompt st
      then setComments (fun prev => prev ++ [newComment]) st
      else st                              (* no [OptimizedPrompt] mounted *)
  end.

Definition run (es : list event) (st : State) : State :=
  fold_left step es st.

(** What holds of the page between two events. *)
Definition at_rest (st : State) : Prop :=
  isLoading st = false /\
  (sessionId st = None \/ present (sessionId st) = true) /\
  (optimizedPrompt st = [] -> comments st = []).

End PromptOptimizer.

(** ** Add operations: select, type, press Add, accepted by the server *)

(** One add: the range selected, the comment typed, and the id and the
    time the accepted request comes back with. *)
Record add_op := mkAdd {
  add_range : Dom.Range;
  add_typed : jsstring;
  add_id : comment_id;
  add_now : jsstring
}.

(** The server stores the comment and answers with its id. *)
Definition add_env (a : add_op) : Env :=
  mkEnv (Response true (mkData None true (Some (add_id a)))) (add_now a) [].

Definition add_gestures (a : add_op) : list gesture :=
  [MouseUp (Some (add_range a)); Submit (add_env a) (add_typed a)].

Definition add (optimizedText : jsstring) (st : State) (a : add_op) : State :=
  run optimizedText (add_gestures a) st.

Definition add_all (optimizedText : jsstring) (adds : list add_op) (st : State)
  : State :=
  fold_left (add optimizedText) adds st.

(** The add gets as far as the request: the selection made on the text as
    it is shown has some text that is not blank, and so has the comment. *)
Definition add_is_sent (optimizedText : jsstring) (st : State) (a : add_op)
  : Prop :=
  trim (range_toString
          (text_nodes (renderTextWithHighlights optimizedText (comments st)))
          (add_range a)) <> [] /\
  truthy (trim (add_typed a)) = true.

Fixpoint adds_are_sent (optimizedText : jsstring) (adds : list add_op)
         (st : State) : Prop :=
  match adds with
  | [] => True
  | a :: rest =>
      add_is_sent optimizedText st a /\
      adds_are_sent optimizedText rest (add optimizedText st a)
  end.

(** What an add leaves in the store, as far as the segments read it. *)
Definition add_core (a : add_op) : comment_id * nat * nat :=
  (add_id a, Dom.startOffset (add_range a), Dom.endOffset (add_range a)).

(** ** The store's errors as the specification words them

    Written from the specification and not from the code, to name the
    attempts the specification wants rejected: a range that violates
    [0 <= startOffset < endOffset <= length(SourceText)], and a range that
    intersects the range of a committed annotation. *)

Definition spec_RangeError (sourceText : jsstring) (sel : SelectedRange.t)
  : Prop :=
  ~ (SelectedRange.startOffset sel < SelectedRange.endOffset sel /\
     SelectedRange.endOffset sel <= length sourceText).

Definition spec_OverlapError (committed : list Comment) (sel : SelectedRange.t)
  : Prop :=
  Exists (fun a => SelectedRange.startOffset sel < endOffset a /\
                   startOffset a < SelectedRange.endOffset sel)
         committed.

(** ** The comment box while requests are pending

    [handleCommentSubmit] is asynchronous: pressing Add sends the request
    and empties the text area at once; the comment is added and the box
    closed only when the answer arrives.  Here the two moments are two
    events, and the requests in between are kept with what their closure
    holds: the candidate selection and the comment at the time of the
    click. *)

Module Pending.

Record request := mkRequest {
  req_selected : option SelectedRange.t;
  req_comment : jsstring
}.

Record live := mkLive {
  ui : State;                   (* the state of [OptimizedPrompt] *)
  typed : jsstring;             (* the [comment] state of [CommentBox] *)
  in_flight : list request
}.

Inductive event :=
| Type_ (v : jsstring)               (* onChange of the text area *)
| PressAdd                           (* onSubmit of the form *)
| Answer (k : nat) (env : Env)       (* the k-th pending request completes *)
| MouseUp (selection : Dom.Selection)
| PressCancel.

(** The text area lives while the box is shown; a box shown again starts
    empty. *)
Definition unmount_if_closed (l : live) : live :=
  if showCommentBox (ui l) then l else mkLive (ui l) [] (in_flight l).

(** Taking the k-th element out of a list. *)
Fixpoint take_out (A : Type) (k : nat) (l : list A) : option (A * list A) :=
  match l, k with
  | [], _ => None
  | x :: rest, 0 => Some (x, rest)
  | x :: rest, S k' =>
      match take_out k' rest with
      | Some (y, rest') => Some (y, x :: rest')
      | None => None
      end
  end.

(** The part of [handleCommentSubmit] that runs once the answer is there. *)
Definition complete (env : Env) (r : request) (st : State) : State :=
  let st1 :=
    match try_submit env (req_selected r) (req_comment r) with
    | Added newComment => setComments (fun prev => prev ++ [newComment]) st
    | NotAdded | Threw _ => st
    end in
  setShowCommentBox false st1.

Definition step (optimizedText : jsstring) (l : live) (e : event) : live :=
  match e with
  | Type_ v =>
      if showCommentBox (ui l) then mkLive (ui l) v (in_flight l) else l
  | PressAdd =>
      if showCommentBox (ui l) && truthy (trim (typed l))
      then mkLive (ui l) []
                  (in_flight l ++ [mkRequest (selectedRange (ui l)) (typed l)])
      else l
  | Answer k env =>
      match take_out k (in_flight l) with
      | Some (r, rest) =>
          unmount_if_closed (mkLive (complete env r (ui l)) (typed l) rest)
      | None => l
      end
  | MouseUp selection =>
      unmount_if_closed
        (mkLive
           (handleSelection
              (text_nodes
                 (renderTextWithHighlights optimizedText (comments (ui l))))
              selection (ui l))
           (typed l) (in_flight l))
  | PressCancel =>
      unmount_if_closed (mkLive (cancel_gesture (ui l)) (typed l) (in_flight l))
  end.

Definition run (optimizedText : jsstring) (es : list event) (l : live) : live :=
  fold_left (step optimizedText) es l.

End Pending.

(** * Properties *)

(** ** Strings *)

Lemma slice_empty (s : jsstring) (a : nat) : slice s a a = [].
Proof. unfold slice. now rewrite Nat.sub_diag. Qed.

Lemma slice_then_rest (s : jsstring) (a b : nat) :
  a <= b -> slice s a b ++ slice_from s b = slice_from s a.
Proof.
  intros Hab. unfold slice, slice_from.
  replace (skipn b s) with (skipn (b - a) (skipn a s)).
  - apply firstn_skipn.
  - rewrite skipn_skipn. f_equal. lia.
Qed.

Lemma slice_from_beyond (s : jsstring) (a : nat) :
  length s <= a -> slice_from s a = [].
Proof. intros H. unfold slice_from. now apply skipn_all2. Qed.

Lemma trimStart_whitespace (s : jsstring) :
  Forall (fun c => is_whitespace c = true) s -> trimStart s = [].
Proof.
  induction 1 as [| c rest Hc _ IH]; simpl.
  - reflexivity.
  - now rewrite Hc.
Qed.

Lemma trim_whitespace (s : jsstring) :
  Forall (fun c => is_whitespace c = true) s -> trim s = [].
Proof.
  intros H. unfold trim, trimEnd.
  now rewrite (trimStart_whitespace H).
Qed.

(** ** The stable sort *)

Section StableSortFacts.
Variable A : Type.
Variable key : A -> nat.

Lemma insert_asc_perm (x : A) (l : list A) :
  Permutation (x :: l) (insert_asc key x l).
Proof.
  induction l as [| y l IH]; simpl.
  - apply Permutation_refl.
  - destruct (key x <=? key y).
    + apply Permutation_refl.
    + eapply perm_trans; [apply perm_swap | now apply perm_skip].
Qed.

Lemma sort_asc_perm (l : list A) : Permutation l (sort_asc key l).
Proof.
  induction l as [| x l IH]; simpl.
  - constructor.
  - eapply perm_trans; [apply perm_skip, IH | apply insert_asc_perm].
Qed.

Lemma insert_asc_sorted (x : A) (l : list A) :
  StronglySorted (le_key key) l -> StronglySorted (le_key key) (insert_asc key x l).
Proof.
  induction 1 as [| y l Hs IH Hall]; simpl.
  - repeat constructor.
  - destruct (key x <=? key y) eqn:E.
    + apply Nat.leb_le in E. constructor.
      * now constructor.
      * constructor; [exact E |].
        eapply Forall_impl; [| exact Hall].
        intros z Hz. unfold le_key in *. lia.
    + apply Nat.leb_gt in E. constructor; [exact IH |].
      eapply Permutation_Forall; [apply insert_asc_perm |].
      constructor; [unfold le_key; lia | exact Hall].
Qed.

Lemma sort_asc_sorted (l : list A) : StronglySorted (le_key key) (sort_asc key l).
Proof.
  induction l as [| x l IH]; simpl.
  - constructor.
  - now apply insert_asc_sorted.
Qed.

(** On a list already in ascending order the sort changes nothing. *)
Lemma sort_asc_id (l : list A) :
  StronglySorted (le_key key) l -> sort_asc key l = l.
Proof.
  induction 1 as [| x l Hs IH Hall]; simpl.
  - reflexivity.
  - rewrite IH. destruct l as [| y l']; simpl.
    + reflexivity.
    + inversion Hall as [| ? ? Hxy _]; subst.
      apply Nat.leb_le in Hxy. now rewrite Hxy.
Qed.

(** Two ascending lists with the same elements and no repeated key are
    the same list. *)
Lemma sorted_perm_unique (l1 l2 : list A) :
  StronglySorted (le_key key) l1 -> StronglySorted (le_key key) l2 ->
  NoDup (map key l1) -> Permutation l1 l2 -> l1 = l2.
Proof.
  revert l2. induction l1 as [| x l1 IH]; intros l2 S1 S2 ND P.
  - now apply Permutation_nil in P.
  - destruct l2 as [| y l2].
    + apply Permutation_sym, Permutation_nil in P. discriminate.
    + inversion S1 as [| ? ? S1' H1]; subst.
      inversion S2 as [| ? ? S2' H2]; subst.
      inversion ND as [| ? ? Hnotin ND']; subst.
      assert (Hxy : x = y).
      { assert (Hx : In x (y :: l2))
          by (eapply Permutation_in; [exact P | now left]).
        assert (Hy : In y (x :: l1))
          by (eapply Permutation_in;
              [apply Permutation_sym; exact P | now left]).
        destruct Hy as [Hy | Hy]; [exact Hy |].
        destruct Hx as [Hx | Hx]; [now symmetry |].
        rewrite Forall_forall in H1, H2.
        specialize (H1 _ Hy). specialize (H2 _ Hx). unfold le_key in *.
        exfalso. apply Hnotin.
        replace (key x) with (key y) by lia.
        now apply in_map. }
      subst y. f_equal.
      apply IH; try assumption.
      now apply Permutation_cons_inv in P.
Qed.

Lemma sort_asc_perm_unique (l1 l2 : list A) :
  NoDup (map key l1) -> Permutation l1 l2 ->
  sort_asc key l1 = sort_asc key l2.
Proof.
  intros ND P. apply sorted_perm_unique.
  - apply sort_asc_sorted.
  - apply sort_asc_sorted.
  - eapply Permutation_NoDup; [| exact ND].
    apply Permutation_map, sort_asc_perm.
  - eapply perm_trans; [apply Permutation_sym, sort_asc_perm |].
    eapply perm_trans; [exact P | apply sort_asc_perm].
Qed.
End StableSortFacts.

(** The sort commutes with a map that is read through by the key. *)
Lemma sort_asc_map (A B : Type) (f : A -> B) (key : B -> nat) (l : list A) :
  map f (sort_asc (fun a => key (f a)) l) = sort_asc key (map f l).
Proof.
  induction l as [| x l IH]; simpl; [reflexivity |].
  rewrite <- IH. clear IH.
  induction (sort_asc (fun a => key (f a)) l) as [| y m IHm]; simpl.
  - reflexivity.
  - destruct (key (f x) <=? key (f y)); simpl; [reflexivity |].
    now rewrite IHm.
Qed.

(** ** The renderer against the cursor scan *)

Section RendererFacts.
Variable optimizedText : jsstring.

Lemma render_nonempty (c : Comment) (cs : list Comment) :
  renderTextWithHighlights optimizedText (c :: cs)
  = RPieces (finish optimizedText (forEach_comment optimizedText
                       (sortedComments (c :: cs)) 0 [] 0)).
Proof.
  unfold renderTextWithHighlights, finish.
  now destruct (forEach_comment _ _ _ _ _).
Qed.

(** The loop, read as segments, is the scan of the specification started
    at [lastIndex]; the spans already pushed stay in front. *)
Lemma forEach_comment_scan (cs : list Comment) :
  forall index pieces lastIndex,
    map segment_of_piece
        (finish optimizedText
           (forEach_comment optimizedText cs index pieces lastIndex))
    = map segment_of_piece pieces ++ spec_scan optimizedText cs lastIndex.
Proof.
  induction cs as [| c rest IH]; intros index pieces lastIndex.
  - unfold finish. simpl.
    destruct (lastIndex <? length optimizedText).
    + now rewrite map_app.
    + now rewrite app_nil_r.
  - simpl forEach_comment. rewrite IH. simpl spec_scan.
    destruct (lastIndex <? startOffset c).
    + rewrite !map_app. simpl. now rewrite <- !app_assoc.
    + rewrite map_app. simpl. now rewrite <- app_assoc.
Qed.

(** For every comment list, the renderer is the specification's scan run
    on the sorted copy. *)
Lemma render_is_scan_of_sorted (comments : list Comment) :
  segments (renderTextWithHighlights optimizedText comments)
  = spec_render optimizedText (sortedComments comments).
Proof.
  destruct comments as [| c cs].
  - unfold spec_render. simpl.
    destruct optimizedText; reflexivity.
  - rewrite render_nonempty. simpl segments.
    now rewrite forEach_comment_scan.
Qed.

Lemma spec_scan_concat (l : list Comment) :
  forall cursor,
    chained cursor l ->
    concat_segments (spec_scan optimizedText l cursor)
    = slice_from optimizedText cursor.
Proof.
  unfold concat_segments.
  induction l as [| a rest IH]; intros cursor Hc.
  - simpl. destruct (cursor <? length optimizedText) eqn:E; simpl.
    + apply app_nil_r.
    + apply Nat.ltb_ge in E. symmetry. now apply slice_from_beyond.
  - inversion Hc as [| ? ? ? Hcs Hse Hrest]; subst.
    simpl. rewrite map_app, concat_app. simpl.
    rewrite (IH _ Hrest), slice_then_rest by exact Hse.
    destruct (cursor <? startOffset a) eqn:E; simpl.
    + rewrite app_nil_r. now apply slice_then_rest.
    + apply Nat.ltb_ge in E.
      replace cursor with (startOffset a) by lia. reflexivity.
Qed.
End RendererFacts.

(** ** Valid annotation sets *)

Lemma ascending_disjoint_chained (l : list Comment) :
  ascending l ->
  Forall (fun a => startOffset a < endOffset a) l ->
  ForallOrdPairs (fun a b => ~ intersects a b) l ->
  forall cursor,
    Forall (fun a => cursor <= startOffset a) l -> chained cursor l.
Proof.
  unfold ascending.
  induction 1 as [| a rest Hs IH Hall]; intros Hne Hdis cursor Hcur.
  - constructor.
  - inversion Hne as [| ? ? Ha Hne']; subst.
    inversion Hdis as [| ? ? Hda Hdis']; subst.
    inversion Hcur as [| ? ? Hca _]; subst.
    constructor; [exact Hca | lia |].
    apply IH; try assumption.
    rewrite Forall_forall in *. intros b Hb.
    specialize (Hall _ Hb). specialize (Hda _ Hb). specialize (Hne' _ Hb).
    unfold intersects in Hda. unfold le_key in Hall. lia.
Qed.

Lemma disjoint_sym (a b : Comment) : ~ intersects a b -> ~ intersects b a.
Proof. unfold intersects. tauto. Qed.

Lemma insert_asc_pairs (x : Comment) (l : list Comment) :
  Forall (fun b => ~ intersects x b) l ->
  ForallOrdPairs (fun a b => ~ intersects a b) l ->
  ForallOrdPairs (fun a b => ~ intersects a b) (insert_asc startOffset x l).
Proof.
  induction l as [| y l IH]; intros Hx Hl; simpl.
  - repeat constructor.
  - destruct (startOffset x <=? startOffset y).
    + now constructor.
    + inversion Hx as [| ? ? Hxy Hx']; subst.
      inversion Hl as [| ? ? Hy Hl']; subst.
      constructor.
      * eapply Permutation_Forall; [apply insert_asc_perm |].
        constructor; [now apply disjoint_sym | exact Hy].
      * now apply IH.
Qed.

Lemma sortedComments_pairs (l : list Comment) :
  ForallOrdPairs (fun a b => ~ intersects a b) l ->
  ForallOrdPairs (fun a b => ~ intersects a b) (sortedComments l).
Proof.
  unfold sortedComments.
  induction 1 as [| x l Hx Hl IH]; simpl.
  - constructor.
  - apply insert_asc_pairs; [| exact IH].
    eapply Permutation_Forall; [apply sort_asc_perm | exact Hx].
Qed.

(** In a valid set no two annotations start at the same offset. *)
Lemma valid_starts_distinct (sourceText : jsstring) (l : list Comment) :
  valid_annotations sourceText l -> NoDup (map startOffset l).
Proof.
  intros [Hv Hd]. induction Hd as [| x l Hx Hl IH]; simpl.
  - constructor.
  - inversion Hv as [| ? ? Hvx Hv']; subst.
    constructor; [| now apply IH].
    intros Hin. apply in_map_iff in Hin. destruct Hin as [y [Hy Hiy]].
    rewrite Forall_forall in Hx, Hv'.
    apply (Hx _ Hiy). specialize (Hv' _ Hiy).
    unfold intersects, valid_range in *. lia.
Qed.

Lemma sortedComments_chained (sourceText : jsstring) (l : list Comment) :
  valid_annotations sourceText l -> chained 0 (sortedComments l).
Proof.
  intros [Hv Hd]. apply ascending_disjoint_chained.
  - apply sort_asc_sorted.
  - eapply Permutation_Forall; [apply sort_asc_perm |].
    eapply Forall_impl; [| exact Hv]. intros a [Ha _]. exact Ha.
  - now apply sortedComments_pairs.
  - apply Forall_forall. intros; lia.
Qed.

Lemma spec_scan_core (sourceText : jsstring) (l1 : list Comment) :
  forall l2 cursor,
    map core l1 = map core l2 ->
    spec_scan sourceText l1 cursor = spec_scan sourceText l2 cursor.
Proof.
  induction l1 as [| a l1 IH]; intros [| b l2] cursor H;
    try discriminate; [reflexivity |].
  simpl in H. injection H as Hid Hs He Hrest.
  simpl. rewrite Hid, Hs, He. now rewrite (IH l2 (endOffset b) Hrest).
Qed.

Lemma spec_scan_retag (sourceText : jsstring) (f : comment_id -> comment_id)
      (l : list Comment) :
  forall cursor,
    spec_scan sourceText (map (retag f) l) cursor
    = map (retag_segment f) (spec_scan sourceText l cursor).
Proof.
  induction l as [| a l IH]; intros cursor; simpl.
  - now destruct (cursor <? length sourceText).
  - rewrite IH, map_app. simpl.
    now destruct (cursor <? startOffset a).
Qed.

Lemma sortedComments_core (l : list Comment) :
  map core (sortedComments l)
  = sort_asc (fun t : comment_id * nat * nat => snd (fst t)) (map core l).
Proof.
  unfold sortedComments.
  exact (sort_asc_map core (fun t : comment_id * nat * nat => snd (fst t)) l).
Qed.

Lemma sortedComments_retag (f : comment_id -> comment_id) (l : list Comment) :
  sortedComments (map (retag f) l) = map (retag f) (sortedComments l).
Proof.
  unfold sortedComments. symmetry.
  exact (sort_asc_map (retag f) startOffset l).
Qed.

(** ** The claims about the renderer *)

(** C2.  On every source text and every comment list in ascending order of
    [startOffset] (non-overlapping or not), [renderTextWithHighlights]
    yields exactly the segments of the specification's cursor scan; on
    "The quick brown fox" with the one annotation [4,9) these are
    Plain "The ", Highlighted "quick" tagged with its id, Plain " brown fox". *)
Theorem renderTextWithHighlights_is_cursor_scan :
  (forall (sourceText : jsstring) (annotations : list Comment),
      ascending annotations ->
      segments (renderTextWithHighlights sourceText annotations)
      = spec_render sourceText annotations)
  /\ segments (renderTextWithHighlights Scenario.fox [Scenario.quick])
     = [ mkSegment Plain (utf16 "The ") None;
         mkSegment Highlighted (utf16 "quick") (Some 1%N);
         mkSegment Plain (utf16 " brown fox") None ].
Proof.
  split.
  - intros sourceText annotations Hasc.
    rewrite render_is_scan_of_sorted. unfold sortedComments.
    f_equal. apply sort_asc_id. exact Hasc.
  - reflexivity.
Qed.

Lemma renderTextWithHighlights_is_cursor_scan_witness :
  ascending [Scenario.quick; Scenario.brown] /\
  segments (renderTextWithHighlights Scenario.fox
              [Scenario.quick; Scenario.brown])
  = spec_render Scenario.fox [Scenario.quick; Scenario.brown].
Proof.
  assert (H : ascending [Scenario.quick; Scenario.brown]).
  { unfold ascending. repeat constructor. }
  split; [exact H |].
  exact (proj1 renderTextWithHighlights_is_cursor_scan _ _ H).
Defined.

(** C3.  Round trip: for every source text and every valid annotation set
    (ranges non-empty and within the text, pairwise non-overlapping, in any
    order), the texts of the rendered segments, concatenated in order, are
    the source text. *)
Theorem render_round_trip (sourceText : jsstring) (annotations : list Comment) :
  valid_annotations sourceText annotations ->
  concat_segments (segments (renderTextWithHighlights sourceText annotations))
  = sourceText.
Proof.
  intros Hvalid.
  rewrite render_is_scan_of_sorted. unfold spec_render.
  rewrite spec_scan_concat.
  - reflexivity.
  - now apply sortedComments_chained with (sourceText := sourceText).
Qed.

Lemma scenario_C_valid :
  valid_annotations Scenario.fox [Scenario.brown; Scenario.quick].
Proof.
  split.
  - repeat constructor; simpl; lia.
  - repeat constructor. unfold intersects. simpl. lia.
Qed.

Lemma render_round_trip_witness :
  valid_annotations Scenario.fox [Scenario.brown; Scenario.quick] /\
  concat_segments
    (segments (renderTextWithHighlights Scenario.fox
                 [Scenario.brown; Scenario.quick]))
  = Scenario.fox.
Proof.
  split; [exact scenario_C_valid |].
  exact (render_round_trip scenario_C_valid).
Defined.

(** C9, as the claim states it, fails: two sessions on "abcdefghij" commit
    the same two annotations, (id 1, [0,2)) and (id 2, [0,3)), in opposite
    orders, and the two renderings differ: annotations that start at the
    same offset are rendered in the order they were inserted. *)
Lemma equal_starts_render_in_insertion_order :
  let pick sc so ec eo := Dom.mkRange sc so ec eo Scenario.rect in
  let s1 := add_all Scenario.alphabet
              [ mkAdd (pick 0 0 0 2) (utf16 "one") 1%N Scenario.stamp;
                mkAdd (pick 1 0 1 3) (utf16 "two") 2%N Scenario.stamp ]
              initialState in
  let s2 := add_all Scenario.alphabet
              [ mkAdd (pick 0 0 0 3) (utf16 "two") 2%N Scenario.stamp;
                mkAdd (pick 1 0 1 2) (utf16 "one") 1%N Scenario.stamp ]
              initialState in
  map core (comments s1) = [(1%N, 0, 2); (2%N, 0, 3)] /\
  map core (comments s2) = [(2%N, 0, 3); (1%N, 0, 2)] /\
  Permutation (map core (comments s1)) (map core (comments s2)) /\
  segments (renderTextWithHighlights Scenario.alphabet (comments s1))
  <> segments (renderTextWithHighlights Scenario.alphabet (comments s2)).
Proof.
  repeat split.
  - apply perm_swap.
  - discriminate.
Qed.

(** C9, amended.  The segment sequence is a function of the source text and
    of the comment list.  Whenever no two annotations start at the same
    offset (so for every valid, non-overlapping set) it is the same for
    every insertion order and whatever the comments' timestamps, texts and
    selected-text copies are: two comment lists that hold the same
    (id, startOffset, endOffset) triples, in any order, render to the same
    segments.  Ids only show as the tags of highlighted segments: renaming
    them renames the tags and changes nothing else. *)
Theorem render_order_independent_on_distinct_starts :
  (forall (sourceText : jsstring) (l1 l2 : list Comment),
      NoDup (map startOffset l1) ->
      Permutation (map core l1) (map core l2) ->
      segments (renderTextWithHighlights sourceText l1)
      = segments (renderTextWithHighlights sourceText l2))
  /\ (forall (sourceText : jsstring) (f : comment_id -> comment_id)
             (l : list Comment),
         segments (renderTextWithHighlights sourceText (map (retag f) l))
         = map (retag_segment f)
               (segments (renderTextWithHighlights sourceText l))).
Proof.
  split.
  - intros sourceText l1 l2 Hstarts Hperm.
    rewrite !render_is_scan_of_sorted. unfold spec_render.
    apply spec_scan_core. rewrite !sortedComments_core.
    apply sort_asc_perm_unique; [| exact Hperm].
    rewrite map_map. simpl. exact Hstarts.
  - intros sourceText f l.
    rewrite !render_is_scan_of_sorted. unfold spec_render.
    now rewrite sortedComments_retag, spec_scan_retag.
Qed.

Lemma render_order_independent_on_distinct_starts_witness :
  NoDup (map startOffset [Scenario.brown; Scenario.quick]) /\
  Permutation
    (map core [Scenario.brown; Scenario.quick])
    (map core [ mkComment 1%N [] 4 9 [] []; mkComment 2%N [] 10 15 [] [] ]) /\
  segments (renderTextWithHighlights Scenario.fox
              [Scenario.brown; Scenario.quick])
  = segments (renderTextWithHighlights Scenario.fox
                [ mkComment 1%N [] 4 9 [] []; mkComment 2%N [] 10 15 [] [] ]).
Proof.
  assert (N : NoDup (map startOffset [Scenario.brown; Scenario.quick])).
  { simpl. constructor.
    - intros [E | []]. discriminate.
    - constructor; [intros [] | constructor]. }
  assert (P : Permutation
                (map core [Scenario.brown; Scenario.quick])
                (map core [ mkComment 1%N [] 4 9 [] [];
                            mkComment 2%N [] 10 15 [] [] ]))
    by (simpl; apply perm_swap).
  split; [exact N | split; [exact P |]].
  exact (proj1 render_order_independent_on_distinct_starts _ _ _ N P).
Defined.

(** Outside the valid sets the order of insertion can show: two comments
    that start at the same offset are iterated in the order they were
    added. *)
Lemma render_follows_insertion_on_equal_starts :
  let a := mkComment 1%N (utf16 "ab") 0 2 (utf16 "first") Scenario.stamp in
  let b := mkComment 2%N (utf16 "abc") 0 3 (utf16 "second") Scenario.stamp in
  intersects a b /\
  segments (renderTextWithHighlights Scenario.alphabet [a; b])
  <> segments (renderTextWithHighlights Scenario.alphabet [b; a]).
Proof.
  split; [unfold intersects; simpl; lia | discriminate].
Qed.

(** ** Selection capture *)

Lemma collapsed_toString (nodes : list jsstring) (r : Dom.Range) :
  collapsed r -> range_toString nodes r = [].
Proof.
  intros [Hc Ho]. unfold range_toString.
  rewrite Hc, Ho, Nat.eqb_refl. apply slice_empty.
Qed.

Lemma empty_selection_toString (nodes : list jsstring) (sel : Dom.Selection) :
  empty_selection nodes sel -> selection_toString nodes sel = [].
Proof.
  destruct sel as [r |]; simpl; [| reflexivity].
  intros [H | H]; [now apply collapsed_toString | exact H].
Qed.

(** The offsets [handleSelection] stores are those of the range, as the
    browser gives them: offsets inside the boundary text nodes. *)
Lemma handleSelection_offsets (nodes : list jsstring) (r : Dom.Range)
      (st : State) :
  trim (range_toString nodes r) <> [] ->
  selectedRange (handleSelection nodes (Some r) st)
  = Some (SelectedRange.mk (trim (range_toString nodes r))
            (Dom.startOffset r) (Dom.endOffset r)).
Proof.
  intros H. unfold handleSelection. simpl.
  destruct (trim (range_toString nodes r)); [contradiction | reflexivity].
Qed.

(** C1.  With the annotation [2,5) on "abcdefghij" the text is shown as the
    three text nodes "ab", "cde", "fghij".  Selecting "fgh" gives a range
    inside the third node; [handleSelection] (and [handleTextSelection])
    store its offsets 0 and 3, where the walk over the rendered nodes gives
    5 and 8; read against the source text, as the renderer does, [0,3) is
    "abc". *)
Theorem handleSelection_stores_node_local_offsets :
  let nodes :=
    text_nodes (renderTextWithHighlights Scenario.alphabet [Scenario.cde]) in
  let st := mkState [Scenario.cde] false (mkPosition 0 0) None None in
  nodes = [utf16 "ab"; utf16 "cde"; utf16 "fghij"] /\
  selection_toString nodes (Some Scenario.select_fgh) = utf16 "fgh" /\
  selectedRange (handleSelection nodes (Some Scenario.select_fgh) st)
  = Some (SelectedRange.mk (utf16 "fgh") 0 3) /\
  Legacy.selectedText
    (Legacy.handleTextSelection nodes (Some Scenario.select_fgh)
       Scenario.rect Legacy.initialState)
  = Some (SelectedRange.mk (utf16 "fgh") 0 3) /\
  spec_absolute_offset nodes 2 0 = 5 /\
  spec_absolute_offset nodes 2 3 = 8 /\
  slice Scenario.alphabet 0 3 = utf16 "abc" /\
  slice Scenario.alphabet 5 8 = utf16 "fgh".
Proof. repeat split. Qed.

(** C8.  On an empty selection (no range, a collapsed range, or a range
    over no text) [handleSelection] stores no candidate and leaves the
    comment box closed: the state is the previous one with
    [showCommentBox] false.  [handleTextSelection] changes nothing at all.
    Both are total: nothing is thrown. *)
Theorem empty_selection_gives_no_candidate
        (nodes : list jsstring) (sel : Dom.Selection) (st : State)
        (containerRect : Dom.Rect) (lst : Legacy.State) :
  empty_selection nodes sel ->
  handleSelection nodes sel st = setShowCommentBox false st /\
  selectedRange (handleSelection nodes sel st) = selectedRange st /\
  showCommentBox (handleSelection nodes sel st) = false /\
  Legacy.handleTextSelection nodes sel containerRect lst = lst.
Proof.
  intros He. pose proof (empty_selection_toString nodes sel He) as Hs.
  assert (H : handleSelection nodes sel st = setShowCommentBox false st).
  { unfold handleSelection. rewrite Hs. now destruct sel. }
  rewrite H. repeat split.
  unfold Legacy.handleTextSelection. rewrite Hs. now destruct sel.
Qed.

Lemma empty_selection_gives_no_candidate_witness :
  empty_selection [utf16 "abcdefghij"] (Some Scenario.caret) /\
  handleSelection [utf16 "abcdefghij"] (Some Scenario.caret) initialState
  = setShowCommentBox false initialState.
Proof.
  assert (H : empty_selection [utf16 "abcdefghij"] (Some Scenario.caret))
    by (left; split; reflexivity).
  split; [exact H |].
  exact (proj1 (@empty_selection_gives_no_candidate _ _
                  initialState Scenario.rect Legacy.initialState H)).
Defined.

(** C10.  When the selected text is made of whitespace only,
    [handleSelection] trims it to the empty string: no candidate is stored
    and the comment box, open or not, is closed. *)
Theorem whitespace_selection_is_empty
        (nodes : list jsstring) (sel : Dom.Selection) (st : State) :
  Forall (fun c => is_whitespace c = true) (selection_toString nodes sel) ->
  handleSelection nodes sel st = setShowCommentBox false st /\
  selectedRange (handleSelection nodes sel st) = selectedRange st /\
  showCommentBox (handleSelection nodes sel st) = false.
Proof.
  intros Hw.
  assert (H : handleSelection nodes sel st = setShowCommentBox false st).
  { unfold handleSelection. rewrite (trim_whitespace Hw). now destruct sel. }
  rewrite H. repeat split.
Qed.

Lemma whitespace_selection_is_empty_witness :
  let st := Scenario.editing [] (SelectedRange.mk (utf16 "a") 0 1) in
  Forall (fun c => is_whitespace c = true)
         (selection_toString [utf16 "a   b"] (Some Scenario.select_blanks)) /\
  showCommentBox st = true /\
  handleSelection [utf16 "a   b"] (Some Scenario.select_blanks) st
  = setShowCommentBox false st.
Proof.
  assert (H : Forall (fun c => is_whitespace c = true)
                (selection_toString [utf16 "a   b"]
                   (Some Scenario.select_blanks)))
    by (repeat constructor).
  split; [exact H | split; [reflexivity |]].
  exact (proj1 (@whitespace_selection_is_empty _ _
                  (Scenario.editing [] (SelectedRange.mk (utf16 "a") 0 1)) H)).
Defined.

(** ** Committing a comment *)

(** What [handleCommentSubmit] does when the server accepts. *)
Lemma handleCommentSubmit_accepted (env : Env) (commentText : jsstring)
      (st : State) (sel : SelectedRange.t) (data : ResponseData)
      (i : comment_id) :
  selectedRange st = Some sel ->
  fetched env = Response true data ->
  data_success data = true ->
  data_comment data = Some i ->
  handleCommentSubmit env commentText st
  = (setShowCommentBox false
       (setComments
          (fun prev =>
             prev ++ [mkComment i (SelectedRange.text sel)
                        (SelectedRange.startOffset sel)
                        (SelectedRange.endOffset sel)
                        commentText (now env)])
          st),
     None).
Proof.
  intros Hsel Hf Hs Hc. unfold handleCommentSubmit, try_submit.
  now rewrite Hsel, Hf, Hs, Hc.
Qed.

(** C4, as the claim states it, fails: with "quick" [4,9) committed, the
    candidate [6,12) intersects it, and the add that the server accepts
    commits it all the same; no error is reported and the list has grown. *)
Lemma overlapping_add_is_committed :
  let candidate := SelectedRange.mk (utf16 "ck brow") 6 12 in
  let st := Scenario.editing [Scenario.quick] candidate in
  let after := handleCommentSubmit (Scenario.accepted 2%N) (utf16 "noun") st in
  intersects Scenario.ck_brow Scenario.quick /\
  comments (fst after) = [Scenario.quick; Scenario.ck_brow] /\
  snd after = None /\
  comments (fst after) <> comments st.
Proof.
  repeat split; try (unfold intersects; simpl; lia).
  simpl. discriminate.
Qed.

(** C4, amended.  [handleCommentSubmit] makes no overlap check: whatever
    the committed comments and the candidate range are, intersecting or
    not, an add that the server accepts appends the candidate, with the
    offsets as selected, after the committed comments, which are kept as
    they were. *)
Theorem add_appends_without_overlap_check (env : Env) (commentText : jsstring)
        (st : State) (sel : SelectedRange.t) (data : ResponseData)
        (i : comment_id) :
  selectedRange st = Some sel ->
  fetched env = Response true data ->
  data_success data = true ->
  data_comment data = Some i ->
  let after := handleCommentSubmit env commentText st in
  comments (fst after)
  = comments st ++ [mkComment i (SelectedRange.text sel)
                      (SelectedRange.startOffset sel)
                      (SelectedRange.endOffset sel) commentText (now env)] /\
  snd after = None.
Proof.
  intros Hsel Hf Hs Hc. simpl.
  rewrite handleCommentSubmit_accepted with (sel := sel) (data := data) (i := i)
    by assumption.
  now split.
Qed.

Lemma add_appends_without_overlap_check_witness :
  let candidate := SelectedRange.mk (utf16 "ck brow") 6 12 in
  let st := Scenario.editing [Scenario.quick] candidate in
  comments (fst (handleCommentSubmit (Scenario.accepted 2%N) (utf16 "noun") st))
  = [Scenario.quick] ++ [Scenario.ck_brow].
Proof.
  exact (proj1 (@add_appends_without_overlap_check
                  (Scenario.accepted 2%N) (utf16 "noun")
                  (Scenario.editing [Scenario.quick]
                     (SelectedRange.mk (utf16 "ck brow") 6 12))
                  _ _ _ eq_refl eq_refl eq_refl eq_refl)).
Defined.

(** C5, as the claim states it, fails: on "abcdefghij" shown with [2,5)
    highlighted, selecting "bc" from the first text node into the second
    gives the range with [startOffset = endOffset = 1]; the add that the
    server accepts commits it. *)
Lemma empty_range_is_committed :
  let st := mkState [Scenario.cde] false (mkPosition 0 0) None None in
  let after :=
    run Scenario.alphabet
        [ MouseUp (Some Scenario.select_bc);
          Submit (Scenario.accepted 2%N) (utf16 "typo") ] st in
  comments after
  = [ Scenario.cde;
      mkComment 2%N (utf16 "bc") 1 1 (utf16 "typo") Scenario.stamp ] /\
  Exists (fun a => startOffset a = endOffset a) (comments after).
Proof.
  split; [reflexivity |].
  apply Exists_cons_tl, Exists_cons_hd. reflexivity.
Qed.

(** C5, amended.  [handleCommentSubmit] makes no range check: for every
    source text and every pair of offsets, empty, inverted or out of bounds
    as well as a range ending at the length of the text, an add that the
    server accepts commits a comment with exactly these offsets. *)
Theorem add_accepts_every_range (sourceText : jsstring) (env : Env)
        (commentText selected : jsstring) (start end_ : nat) (st : State)
        (data : ResponseData) (i : comment_id) :
  selectedRange st = Some (SelectedRange.mk selected start end_) ->
  fetched env = Response true data ->
  data_success data = true ->
  data_comment data = Some i ->
  let after := fst (handleCommentSubmit env commentText st) in
  In (mkComment i selected start end_ commentText (now env)) (comments after)
  /\ (end_ = length sourceText ->
      Exists (fun a => endOffset a = length sourceText) (comments after)).
Proof.
  intros Hsel Hf Hs Hc. simpl.
  rewrite handleCommentSubmit_accepted
    with (sel := SelectedRange.mk selected start end_) (data := data) (i := i)
    by assumption.
  simpl.
  assert (Hin : In (mkComment i selected start end_ commentText (now env))
                   (comments st
                    ++ [mkComment i selected start end_ commentText (now env)]))
    by (apply in_or_app; right; now left).
  split; [exact Hin |].
  intros He. apply Exists_exists.
  eexists; split; [exact Hin | exact He].
Qed.

Lemma add_accepts_every_range_witness :
  let st := Scenario.editing [] (SelectedRange.mk (utf16 "fox") 16 19) in
  In (mkComment 1%N (utf16 "fox") 16 19 (utf16 "animal") Scenario.stamp)
     (comments (fst (handleCommentSubmit (Scenario.accepted 1%N)
                       (utf16 "animal") st))).
Proof.
  exact (proj1 (@add_accepts_every_range Scenario.fox
                  (Scenario.accepted 1%N) (utf16 "animal") (utf16 "fox") 16 19
                  (Scenario.editing [] (SelectedRange.mk (utf16 "fox") 16 19))
                  _ _ eq_refl eq_refl eq_refl eq_refl)).
Defined.

(** ** The store and the order of its comments *)

Lemma handleSelection_nonblank (nodes : list jsstring) (r : Dom.Range)
      (st : State) :
  trim (range_toString nodes r) <> [] ->
  handleSelection nodes (Some r) st
  = setShowCommentBox true
      (setSelectedRange
         (Some (SelectedRange.mk (trim (range_toString nodes r))
                  (Dom.startOffset r) (Dom.endOffset r)))
         (setCommentPosition
            (mkPosition (Dom.right (Dom.getBoundingClientRect r))
                        (Dom.top (Dom.getBoundingClientRect r)))
            st)).
Proof.
  intros H. unfold handleSelection. simpl.
  destruct (trim (range_toString nodes r)); [contradiction | reflexivity].
Qed.

(** An add that is sent and accepted appends its comment to the store. *)
Lemma add_commits (optimizedText : jsstring) (st : State) (a : add_op) :
  add_is_sent optimizedText st a ->
  comments (add optimizedText st a)
  = comments st
    ++ [mkComment (add_id a)
          (trim (range_toString
                   (text_nodes
                      (renderTextWithHighlights optimizedText (comments st)))
                   (add_range a)))
          (Dom.startOffset (add_range a)) (Dom.endOffset (add_range a))
          (add_typed a) (add_now a)].
Proof.
  intros [Hsel Htyped].
  unfold add, add_gestures, run. cbn [fold_left].
  change (step optimizedText st (MouseUp (Some (add_range a))))
    with (handleSelection
            (text_nodes (renderTextWithHighlights optimizedText (comments st)))
            (Some (add_range a)) st).
  rewrite handleSelection_nonblank by exact Hsel.
  cbn [step showCommentBox setShowCommentBox].
  unfold submit_gesture, CommentBox_handleSubmit. rewrite Htyped.
  rewrite handleCommentSubmit_accepted
    with (sel := SelectedRange.mk
                   (trim (range_toString
                            (text_nodes
                               (renderTextWithHighlights optimizedText
                                  (comments st)))
                            (add_range a)))
                   (Dom.startOffset (add_range a))
                   (Dom.endOffset (add_range a)))
         (data := mkData None true (Some (add_id a))) (i := add_id a);
    reflexivity.
Qed.

(** C6, as the claim states it, fails: on "The quick brown fox", "brown"
    [10,15) is added first and "quick" [4,9) second; the store lists them
    in that order, which is not ascending by [startOffset]. *)
Lemma store_is_in_insertion_order :
  let pick sc so ec eo := Dom.mkRange sc so ec eo Scenario.rect in
  let st := add_all Scenario.fox
              [ mkAdd (pick 0 10 0 15) (utf16 "color") 2%N Scenario.stamp;
                mkAdd (pick 0 4 0 9) (utf16 "adj") 1%N Scenario.stamp ]
              initialState in
  comments st = [Scenario.brown; Scenario.quick] /\
  ~ ascending (comments st).
Proof.
  split; [reflexivity |].
  intros H. simpl in H. unfold ascending in H.
  inversion H as [| ? ? _ Hall]; subst.
  inversion Hall as [| ? ? Hle _]; subst.
  unfold le_key in Hle. simpl in Hle. lia.
Qed.

(** C6, amended.  For every sequence of adds that are sent and accepted,
    performed in any order and from any state, the store ([comments], what
    the component holds and hands to the renderer) lists the annotations in
    insertion order: the ones it had, then one per add in the order of the
    adds, with the offsets captured.  Positional order exists only in the
    copy [renderTextWithHighlights] sorts before it iterates: that copy
    holds the same comments in ascending order of [startOffset]. *)
Theorem store_appends_and_renderer_sorts (optimizedText : jsstring)
        (adds : list add_op) :
  forall st,
    adds_are_sent optimizedText adds st ->
    let st' := add_all optimizedText adds st in
    map core (comments st') = map core (comments st) ++ map add_core adds /\
    ascending (sortedComments (comments st')) /\
    Permutation (comments st') (sortedComments (comments st')).
Proof.
  induction adds as [| a adds IH]; intros st Hsent; cbv zeta;
    unfold add_all; cbn [fold_left map].
  - rewrite app_nil_r. split; [reflexivity |].
    split; [apply sort_asc_sorted | apply sort_asc_perm].
  - destruct Hsent as [Ha Hrest].
    pose proof (IH _ Hrest) as H. cbv zeta in H. unfold add_all in H.
    destruct H as [Hcore [Hasc Hperm]].
    split; [| split; [exact Hasc | exact Hperm]].
    rewrite Hcore, (add_commits Ha), map_app, <- app_assoc. reflexivity.
Qed.

Lemma store_appends_and_renderer_sorts_witness :
  let pick sc so ec eo := Dom.mkRange sc so ec eo Scenario.rect in
  let adds := [ mkAdd (pick 0 10 0 15) (utf16 "color") 2%N Scenario.stamp;
                mkAdd (pick 0 4 0 9) (utf16 "adj") 1%N Scenario.stamp ] in
  adds_are_sent Scenario.fox adds initialState /\
  map core (comments (add_all Scenario.fox adds initialState))
  = [(2%N, 10, 15); (1%N, 4, 9)] /\
  sortedComments (comments (add_all Scenario.fox adds initialState))
  = [Scenario.quick; Scenario.brown].
Proof.
  assert (H : adds_are_sent Scenario.fox
                [ mkAdd (Dom.mkRange 0 10 0 15 Scenario.rect) (utf16 "color")
                        2%N Scenario.stamp;
                  mkAdd (Dom.mkRange 0 4 0 9 Scenario.rect) (utf16 "adj")
                        1%N Scenario.stamp ]
                initialState).
  { repeat split; discriminate. }
  split; [exact H |].
  split; [| reflexivity].
  exact (proj1 (@store_appends_and_renderer_sorts Scenario.fox _
                  initialState H)).
Defined.


(** C7, as the claim states it, fails.  On "The quick brown fox" with
    "quick" [4,9) committed, the candidate captured as [4,6) intersects it,
    so the specification wants [OverlapError]; on "abcdefghij" with [2,5)
    committed, the candidate captured as [1,1) is empty, so the
    specification wants [RangeError].  In both sessions the comment box is
    open and a comment is typed; pressing Add closes the box, clears the
    typed text and commits the candidate. *)
Lemma unwanted_commit_leaves_editing :
  let pick sc so ec eo := Dom.mkRange sc so ec eo Scenario.rect in
  let st := run Scenario.fox
              [ MouseUp (Some (pick 0 4 0 9));
                Submit (Scenario.accepted 1%N) (utf16 "adj");
                MouseUp (Some (pick 2 4 2 6)) ] initialState in
  let st2 := run Scenario.alphabet
               [ MouseUp (Some (pick 0 2 0 5));
                 Submit (Scenario.accepted 1%N) (utf16 "middle");
                 MouseUp (Some Scenario.select_bc) ] initialState in
  (showCommentBox st = true /\
   selectedRange st = Some (SelectedRange.mk (utf16 "wn") 4 6) /\
   spec_OverlapError (comments st) (SelectedRange.mk (utf16 "wn") 4 6) /\
   submit_gesture (Scenario.accepted 2%N) (utf16 "noun") st
   = (setShowCommentBox false
        (setComments
           (fun prev =>
              prev ++ [mkComment 2%N (utf16 "wn") 4 6 (utf16 "noun")
                         Scenario.stamp])
           st),
      [], None)) /\
  (showCommentBox st2 = true /\
   selectedRange st2 = Some (SelectedRange.mk (utf16 "bc") 1 1) /\
   spec_RangeError Scenario.alphabet (SelectedRange.mk (utf16 "bc") 1 1) /\
   submit_gesture (Scenario.accepted 2%N) (utf16 "typo") st2
   = (setShowCommentBox false
        (setComments
           (fun prev =>
              prev ++ [mkComment 2%N (utf16 "bc") 1 1 (utf16 "typo")
                         Scenario.stamp])
           st2),
      [], None)).
Proof.
  split; repeat split.
  - apply Exists_cons_hd. simpl. lia.
  - intros [H _]. simpl in H. lia.
Qed.

(** C7, amended.  The store rejects nothing: a commit attempt is decided by
    the server's answer alone, whatever the candidate range is.  After
    every attempt with a comment that is not blank the comment box is
    closed and the typed text is cleared.  The comment list is left as it
    was, with an alert, when the request throws, when the answer is not ok,
    or when it flags success without a comment; it is left as it was,
    without alert, when an ok answer flags no success; and it gains exactly
    the candidate, with the text typed, when an ok answer flags success
    with a comment. *)
Theorem commit_attempt_outcome (env : Env) (typed : jsstring) (st : State)
        (sel : SelectedRange.t) :
  truthy (trim typed) = true ->
  selectedRange st = Some sel ->
  let st' := fst (fst (submit_gesture env typed st)) in
  let typed' := snd (fst (submit_gesture env typed st)) in
  let alerted := snd (submit_gesture env typed st) in
  let failed message :=
    comments st' = comments st /\
    alerted = Some (utf16 "Failed to save feedback: " ++ message) in
  showCommentBox st' = false /\
  typed' = [] /\
  selectedRange st' = selectedRange st /\
  match fetched env with
  | Thrown message => failed message
  | Response false data =>
      failed (or_default (data_error data) (utf16 "Failed to save feedback"))
  | Response true data =>
      match data_success data, data_comment data with
      | true, Some i =>
          comments st'
          = comments st
            ++ [mkComment i (SelectedRange.text sel)
                  (SelectedRange.startOffset sel) (SelectedRange.endOffset sel)
                  typed (now env)] /\
          alerted = None
      | true, None => failed (typeError env)
      | false, _ => comments st' = comments st /\ alerted = None
      end
  end.
Proof.
  intros Ht Hsel.
  unfold submit_gesture, CommentBox_handleSubmit, handleCommentSubmit,
    try_submit.
  rewrite Ht, Hsel.
  destruct (fetched env) as [message | [|] data]; simpl.
  - repeat split; assumption.
  - destruct (data_success data), (data_comment data) as [i |]; simpl;
      repeat split; assumption.
  - repeat split; assumption.
Qed.

Lemma commit_attempt_outcome_witness :
  let st := Scenario.editing [Scenario.quick]
              (SelectedRange.mk (utf16 "wn") 4 6) in
  truthy (trim (utf16 "noun")) = true /\
  selectedRange st = Some (SelectedRange.mk (utf16 "wn") 4 6) /\
  spec_OverlapError (comments st) (SelectedRange.mk (utf16 "wn") 4 6) /\
  showCommentBox (fst (fst (submit_gesture (Scenario.accepted 2%N)
                              (utf16 "noun") st))) = false.
Proof.
  split; [reflexivity | split; [reflexivity | split]].
  - apply Exists_cons_hd. simpl. lia.
  - exact (proj1 (@commit_attempt_outcome (Scenario.accepted 2%N)
                    (utf16 "noun")
                    (Scenario.editing [Scenario.quick]
                       (SelectedRange.mk (utf16 "wn") 4 6))
                    (SelectedRange.mk (utf16 "wn") 4 6) eq_refl eq_refl)).
Defined.


(** The [comments] array itself is in insertion order; only the copy the
    renderer sorts is in positional order. *)
Lemma comments_keep_insertion_order :
  let st := Scenario.editing [Scenario.brown]
              (SelectedRange.mk (utf16 "quick") 4 9) in
  let after := fst (handleCommentSubmit (Scenario.accepted 1%N) (utf16 "adj") st) in
  comments after = [Scenario.brown; Scenario.quick] /\
  sortedComments (comments after) = [Scenario.quick; Scenario.brown].
Proof. split; reflexivity. Qed.

(** ** The older stand-alone component *)

Lemma insert_desc_length (A : Type) (key : A -> nat) (x : A) (l : list A) :
  length (insert_desc key x l) = S (length l).
Proof.
  induction l as [| y l IH]; simpl; [reflexivity |].
  destruct (key y <=? key x); simpl; [reflexivity | now rewrite IH].
Qed.

Lemma sort_desc_length (A : Type) (key : A -> nat) (l : list A) :
  length (sort_desc key l) = length l.
Proof.
  induction l as [| x l IH]; simpl; [reflexivity |].
  now rewrite insert_desc_length, IH.
Qed.

(** With one comment [renderTextWithComments] cuts the text in three. *)
Lemma legacy_render_single (optimizedText : jsstring) (c : Legacy.Comment) :
  Legacy.renderTextWithComments optimizedText [c]
  = Some (Legacy.Fragment
            (slice optimizedText 0 (Legacy.startOffset c))
            (slice optimizedText (Legacy.startOffset c) (Legacy.endOffset c))
            (Legacy.comment c)
            (slice_from optimizedText (Legacy.endOffset c))).
Proof. reflexivity. Qed.

(** With two comments or more its second iteration calls [slice] on a React
    element: the render throws. *)
Lemma legacy_render_two_throws (optimizedText : jsstring)
      (c1 c2 : Legacy.Comment) (cs : list Legacy.Comment) :
  Legacy.renderTextWithComments optimizedText (c1 :: c2 :: cs) = None.
Proof.
  unfold Legacy.renderTextWithComments.
  pose proof (sort_desc_length Legacy.startOffset (c1 :: c2 :: cs)) as Hlen.
  destruct (sort_desc Legacy.startOffset (c1 :: c2 :: cs)) as [| a [| b rest]];
    simpl in Hlen; try discriminate.
  reflexivity.
Qed.

(** It iterates the comments from the last position to the first. *)
Lemma legacy_iterates_descending :
  let quick := Legacy.mkComment (utf16 "quick") 4 9 (utf16 "adj") 1 in
  let brown := Legacy.mkComment (utf16 "brown") 10 15 (utf16 "color") 2 in
  sort_desc Legacy.startOffset [quick; brown] = [brown; quick].
Proof. reflexivity. Qed.

(** [handleSaveComment] appends the candidate, whatever its range. *)
Lemma legacy_handleSaveComment_appends (dateNow : N) (commentText : jsstring)
      (st : Legacy.State) (sel : SelectedRange.t) :
  Legacy.selectedText st = Some sel ->
  Legacy.comments (Legacy.handleSaveComment dateNow commentText st)
  = Legacy.comments st
    ++ [Legacy.mkComment (SelectedRange.text sel)
          (SelectedRange.startOffset sel) (SelectedRange.endOffset sel)
          commentText dateNow].
Proof.
  intros H. unfold Legacy.handleSaveComment. now rewrite H.
Qed.

(** [handleTextSelection] does not trim: a selection of blanks opens the
    popover. *)
Lemma legacy_whitespace_selection_opens_popover :
  Legacy.showCommentPopover
    (Legacy.handleTextSelection [utf16 "a   b"] (Some Scenario.select_blanks)
       Scenario.rect Legacy.initialState)
  = true.
Proof. reflexivity. Qed.

(** * Further properties of the code *)

(** ** Sessions on the mounted component *)

Lemma handleSelection_comments (nodes : list jsstring) (sel : Dom.Selection)
      (st : State) :
  comments (handleSelection nodes sel st) = comments st.
Proof.
  unfold handleSelection. destruct sel as [r |]; [| reflexivity].
  now destruct (negb (truthy (trim (selection_toString nodes (Some r))))).
Qed.

(** How [handleCommentSubmit] ends, by the way its [try] block ends. *)
Lemma handleCommentSubmit_cases (env : Env) (commentText : jsstring)
      (st : State) :
  (exists c, try_submit env (selectedRange st) commentText = Added c /\
             handleCommentSubmit env commentText st
             = (setShowCommentBox false
                  (setComments (fun prev => prev ++ [c]) st), None))
  \/ (try_submit env (selectedRange st) commentText = NotAdded /\
      handleCommentSubmit env commentText st
      = (setShowCommentBox false st, None))
  \/ (exists m, try_submit env (selectedRange st) commentText = Threw m /\
                handleCommentSubmit env commentText st
                = (setShowCommentBox false st,
                   Some (utf16 "Failed to save feedback: " ++ m))).
Proof.
  unfold handleCommentSubmit.
  destruct (try_submit env (selectedRange st) commentText) as [c | | m].
  - left. now exists c.
  - right; left. now split.
  - right; right. now exists m.
Qed.

(** The comment a successful [try] block builds: the candidate's text and
    offsets, the text typed, the id and the time given. *)
Lemma try_submit_added (env : Env) (selected : option SelectedRange.t)
      (commentText : jsstring) (c : Comment) :
  try_submit env selected commentText = Added c ->
  exists sel, selected = Some sel /\
              text c = SelectedRange.text sel /\
              startOffset c = SelectedRange.startOffset sel /\
              endOffset c = SelectedRange.endOffset sel /\
              comment c = commentText /\
              created_at c = now env.
Proof.
  unfold try_submit. destruct selected as [sel |]; [| discriminate].
  destruct (fetched env) as [m | ok data]; [discriminate |].
  destruct (negb ok); [discriminate |].
  destruct (data_success data); [| discriminate].
  destruct (data_comment data) as [i |]; [| discriminate].
  intros H. injection H as <-. exists sel. simpl. repeat split.
Qed.




Lemma step_comments_grow (optimizedText : jsstring) (st : State) (g : gesture) :
  exists added, comments (step optimizedText st g) = comments st ++ added.
Proof.
  destruct g as [sel | env typed |]; simpl.
  - exists []. now rewrite handleSelection_comments, app_nil_r.
  - destruct (showCommentBox st); [| exists []; now rewrite app_nil_r].
    unfold submit_gesture, CommentBox_handleSubmit.
    destruct (truthy (trim typed)); [| exists []; simpl; now rewrite app_nil_r].
    destruct (handleCommentSubmit_cases env typed st)
      as [[c [_ H]] | [[_ H] | [m [_ H]]]]; rewrite H; simpl.
    + now exists [c].
    + exists []. now rewrite app_nil_r.
    + exists []. now rewrite app_nil_r.
  - exists []. now rewrite app_nil_r.
Qed.

(** X2.  No gesture removes, reorders or rewrites a committed comment: after
    every session the comment list is the one it started with, followed by
    the comments added. *)
Theorem session_only_appends (optimizedText : jsstring) (gs : list gesture) :
  forall st,
    exists added,
      comments (run optimizedText gs st) = comments st ++ added.
Proof.
  unfold run. induction gs as [| g gs IH]; intros st; simpl.
  - exists []. now rewrite app_nil_r.
  - destruct (step_comments_grow optimizedText st g) as [a1 H1].
    destruct (IH (step optimizedText st g)) as [a2 H2].
    exists (a1 ++ a2). now rewrite H2, H1, app_assoc.
Qed.

Lemma step_candidate_ok (optimizedText : jsstring) (st : State) (g : gesture) :
  candidate_ok st -> candidate_ok (step optimizedText st g).
Proof.
  unfold candidate_ok. intros Hok.
  destruct g as [sel | env typed |]; simpl.
  - unfold handleSelection. destruct sel as [r |]; simpl.
    + destruct (trim (range_toString _ r)) eqn:E; simpl.
      * destruct (selectedRange st); [exact Hok | reflexivity].
      * discriminate.
    + destruct (selectedRange st); [exact Hok | reflexivity].
  - destruct (showCommentBox st) eqn:Eb; [| now rewrite Eb in *].
    unfold submit_gesture, CommentBox_handleSubmit.
    destruct (truthy (trim typed)); simpl; [| now rewrite Eb].
    destruct (handleCommentSubmit_cases env typed st)
      as [[c [_ H]] | [[_ H] | [m [_ H]]]]; rewrite H; simpl;
      destruct (selectedRange st); try exact Hok; reflexivity.
  - destruct (selectedRange st); [exact Hok | reflexivity].
Qed.

Lemma run_candidate_ok (optimizedText : jsstring) (gs : list gesture) :
  forall st, candidate_ok st -> candidate_ok (run optimizedText gs st).
Proof.
  unfold run. induction gs as [| g gs IH]; intros st H; simpl.
  - exact H.
  - apply IH. now apply step_candidate_ok.
Qed.

(** X3.  In every session from the first render, whenever the comment box
    is open a candidate selection is stored and its text is not empty: the
    submit handler never finds [selectedRange] null. *)
Theorem open_box_has_candidate (optimizedText : jsstring) (gs : list gesture) :
  let st := run optimizedText gs initialState in
  showCommentBox st = true ->
  exists sel, selectedRange st = Some sel /\ SelectedRange.text sel <> [].
Proof.
  simpl. intros Hopen.
  assert (Hok : candidate_ok (run optimizedText gs initialState))
    by (apply run_candidate_ok; reflexivity).
  unfold candidate_ok in Hok.
  destruct (selectedRange (run optimizedText gs initialState)) as [sel |].
  - now exists sel.
  - rewrite Hok in Hopen. discriminate.
Qed.

Lemma open_box_has_candidate_witness :
  let st := run Scenario.alphabet
                [MouseUp (Some (Dom.mkRange 0 5 0 8 Scenario.rect))]
                initialState in
  showCommentBox st = true /\
  exists sel, selectedRange st = Some sel /\ SelectedRange.text sel <> [].
Proof.
  split; [reflexivity |].
  exact (@open_box_has_candidate Scenario.alphabet
           [MouseUp (Some (Dom.mkRange 0 5 0 8 Scenario.rect))] eq_refl).
Defined.

Lemma step_comment_ok (optimizedText : jsstring) (st : State) (g : gesture) :
  candidate_ok st -> Forall comment_ok (comments st) ->
  Forall comment_ok (comments (step optimizedText st g)).
Proof.
  intros Hc Hall.
  destruct g as [sel | env typed |]; simpl.
  - now rewrite handleSelection_comments.
  - destruct (showCommentBox st); [| exact Hall].
    unfold submit_gesture, CommentBox_handleSubmit.
    destruct (truthy (trim typed)) eqn:Et; simpl; [| exact Hall].
    destruct (handleCommentSubmit_cases env typed st)
      as [[c [Ht H]] | [[_ H] | [m [_ H]]]]; rewrite H; simpl;
      try exact Hall.
    apply Forall_app. split; [exact Hall |].
    constructor; [| constructor].
    destruct (try_submit_added _ _ _ Ht)
      as [sel [Hsel [Htext [_ [_ [Hcomment _]]]]]].
    unfold candidate_ok in Hc. rewrite Hsel in Hc.
    unfold comment_ok. rewrite Htext, Hcomment. now split.
  - exact Hall.
Qed.

(** X4.  Every comment a session commits has a selected text that is not
    empty and a comment text that is not blank, provided the session starts
    from a state of which this holds. *)
Theorem session_commits_real_comments (optimizedText : jsstring)
        (gs : list gesture) :
  forall st,
    candidate_ok st -> Forall comment_ok (comments st) ->
    Forall comment_ok (comments (run optimizedText gs st)).
Proof.
  unfold run. induction gs as [| g gs IH]; intros st Hc Hall; simpl.
  - exact Hall.
  - apply IH.
    + now apply step_candidate_ok.
    + now apply step_comment_ok.
Qed.

Lemma session_commits_real_comments_witness :
  candidate_ok initialState /\
  Forall comment_ok (comments initialState) /\
  Forall comment_ok
    (comments (run Scenario.alphabet
                 [ MouseUp (Some (Dom.mkRange 0 2 0 5 Scenario.rect));
                   Submit (Scenario.accepted 1%N) (utf16 "middle") ]
                 initialState)).
Proof.
  split; [reflexivity | split; [constructor |]].
  exact (@session_commits_real_comments Scenario.alphabet
           [ MouseUp (Some (Dom.mkRange 0 2 0 5 Scenario.rect));
             Submit (Scenario.accepted 1%N) (utf16 "middle") ]
           initialState eq_refl (Forall_nil _)).
Defined.

(** X5.  A submit with a blank comment does nothing: no request is made, no
    comment is added, the box stays open and the text typed stays in it. *)
Theorem blank_comment_is_not_submitted (optimizedText : jsstring) (env : Env)
        (typed : jsstring) (st : State) :
  Forall (fun c => is_whitespace c = true) typed ->
  submit_gesture env typed st = (st, typed, None) /\
  step optimizedText st (Submit env typed) = st.
Proof.
  intros Hw.
  assert (H : submit_gesture env typed st = (st, typed, None)).
  { unfold submit_gesture, CommentBox_handleSubmit.
    now rewrite (trim_whitespace Hw). }
  split; [exact H |].
  simpl. rewrite H. now destruct (showCommentBox st).
Qed.

Lemma blank_comment_is_not_submitted_witness :
  let st := Scenario.editing [] (SelectedRange.mk (utf16 "fox") 16 19) in
  Forall (fun c => is_whitespace c = true) (utf16 "  ") /\
  submit_gesture (Scenario.accepted 1%N) (utf16 "  ") st
  = (st, utf16 "  ", None).
Proof.
  assert (H : Forall (fun c => is_whitespace c = true) (utf16 "  "))
    by (repeat constructor).
  split; [exact H |].
  exact (proj1 (@blank_comment_is_not_submitted Scenario.fox
                  (Scenario.accepted 1%N) (utf16 "  ")
                  (Scenario.editing [] (SelectedRange.mk (utf16 "fox") 16 19))
                  H)).
Defined.

(** ** The spans of a rendering *)

Lemma highlight_spans_app (ps qs : list piece) :
  highlight_spans (ps ++ qs) = highlight_spans ps ++ highlight_spans qs.
Proof.
  induction ps as [| [k s | k t s] ps IH]; simpl.
  - reflexivity.
  - exact IH.
  - now rewrite IH.
Qed.

Lemma forEach_comment_highlights (optimizedText : jsstring) (cs : list Comment) :
  forall index pieces lastIndex,
    highlight_spans
      (fst (forEach_comment optimizedText cs index pieces lastIndex))
    = highlight_spans pieces ++ map (highlight_of optimizedText) cs.
Proof.
  induction cs as [| c rest IH]; intros index pieces lastIndex; simpl.
  - now rewrite app_nil_r.
  - rewrite IH, highlight_spans_app. simpl.
    destruct (lastIndex <? startOffset c).
    + rewrite highlight_spans_app. simpl.
      now rewrite app_nil_r, <- app_assoc.
    + now rewrite <- app_assoc.
Qed.

Lemma finish_highlights (optimizedText : jsstring) (r : list piece * nat) :
  highlight_spans (finish optimizedText r) = highlight_spans (fst r).
Proof.
  unfold finish. destruct (snd r <? length optimizedText); [| reflexivity].
  rewrite highlight_spans_app. simpl. apply app_nil_r.
Qed.

(** X6.  Whatever the comments are (overlapping, out of bounds, in any
    order), the rendering has exactly one highlighted span per comment, in
    ascending order of [startOffset]; each is keyed by the comment's id,
    shows the comment's text on hover and highlights the source text
    between the comment's offsets. *)
Theorem one_highlight_per_comment (optimizedText : jsstring)
        (comments : list Comment) :
  highlight_spans (pieces_of (renderTextWithHighlights optimizedText comments))
  = map (highlight_of optimizedText) (sortedComments comments)
  /\ length (highlight_spans
               (pieces_of (renderTextWithHighlights optimizedText comments)))
     = length comments.
Proof.
  assert (H : highlight_spans
                (pieces_of (renderTextWithHighlights optimizedText comments))
              = map (highlight_of optimizedText) (sortedComments comments)).
  { destruct comments as [| c cs]; [reflexivity |].
    rewrite render_nonempty. simpl pieces_of.
    now rewrite finish_highlights, forEach_comment_highlights. }
  split; [exact H |].
  rewrite H, length_map. symmetry.
  apply Permutation_length. unfold sortedComments. apply sort_asc_perm.
Qed.

Lemma NoDup_snoc (A : Type) (l : list A) (x : A) :
  NoDup l -> ~ In x l -> NoDup (l ++ [x]).
Proof.
  intros Hl Hx. eapply Permutation_NoDup.
  - apply Permutation_cons_append.
  - now constructor.
Qed.

(** The keys pushed by the loop stay distinct: plain spans are numbered by
    the loop index, highlighted spans carry ids not met before. *)
Lemma forEach_comment_keys (optimizedText : jsstring) (cs : list Comment) :
  forall index pieces lastIndex,
    NoDup (map id cs) ->
    NoDup (map piece_key pieces) ->
    (forall j, In (KeyText j) (map piece_key pieces) -> j < index) ->
    (forall i, In (KeyId i) (map piece_key pieces) -> ~ In i (map id cs)) ->
    ~ In KeyEnd (map piece_key pieces) ->
    let ks := map piece_key
                (fst (forEach_comment optimizedText cs index pieces lastIndex))
    in NoDup ks /\ ~ In KeyEnd ks.
Proof.
  induction cs as [| c rest IH];
    intros index pieces lastIndex Hids Hnd Htext Hid Hend; simpl.
  - now split.
  - inversion Hids as [| ? ? Hc Hrest]; subst.
    set (pieces1 :=
           if lastIndex <? startOffset c
           then pieces ++ [PlainSpan (KeyText index)
                             (slice optimizedText lastIndex (startOffset c))]
           else pieces).
    assert (H1 : NoDup (map piece_key pieces1) /\
                 (forall j, In (KeyText j) (map piece_key pieces1) ->
                            j < S index) /\
                 (forall i, In (KeyId i) (map piece_key pieces1) ->
                            ~ In i (map id (c :: rest))) /\
                 ~ In KeyEnd (map piece_key pieces1)).
    { unfold pieces1. destruct (lastIndex <? startOffset c).
      - rewrite map_app. simpl. repeat split.
        + apply NoDup_snoc; [exact Hnd |].
          intros Hin. apply Htext in Hin. lia.
        + intros j Hj. apply in_app_or in Hj. destruct Hj as [Hj | [Hj | []]].
          * apply Htext in Hj. lia.
          * injection Hj as <-. lia.
        + intros i Hi. apply in_app_or in Hi. destruct Hi as [Hi | [Hi | []]].
          * now apply Hid.
          * discriminate.
        + intros Hin. apply in_app_or in Hin.
          destruct Hin as [Hin | [Hin | []]]; [now apply Hend | discriminate].
      - repeat split; try assumption.
        intros j Hj. apply Htext in Hj. lia. }
    destruct H1 as [Hnd1 [Htext1 [Hid1 Hend1]]].
    apply IH.
    + exact Hrest.
    + rewrite map_app. simpl. apply NoDup_snoc; [exact Hnd1 |].
      intros Hin. apply Hid1 in Hin. apply Hin. now left.
    + intros j Hj. rewrite map_app in Hj. apply in_app_or in Hj.
      destruct Hj as [Hj | [Hj | []]]; [now apply Htext1 | discriminate].
    + intros i Hi. rewrite map_app in Hi. apply in_app_or in Hi.
      destruct Hi as [Hi | [Hi | []]].
      * intros Hin. apply (Hid1 _ Hi). now right.
      * injection Hi as <-. exact Hc.
    + intros Hin. rewrite map_app in Hin. apply in_app_or in Hin.
      destruct Hin as [Hin | [Hin | []]]; [now apply Hend1 | discriminate].
Qed.

(** X7.  When the comments have distinct ids, the spans of the rendering
    have distinct React keys. *)
Theorem span_keys_distinct (optimizedText : jsstring) (comments : list Comment) :
  NoDup (map id comments) ->
  NoDup (map piece_key
           (pieces_of (renderTextWithHighlights optimizedText comments))).
Proof.
  intros Hids. destruct comments as [| c cs]; [constructor |].
  rewrite render_nonempty. simpl pieces_of.
  assert (Hsorted : NoDup (map id (sortedComments (c :: cs)))).
  { eapply Permutation_NoDup; [| exact Hids].
    apply Permutation_map. unfold sortedComments. apply sort_asc_perm. }
  destruct (@forEach_comment_keys optimizedText (sortedComments (c :: cs))
              0 [] 0 Hsorted (NoDup_nil _)) as [Hnd Hend];
    try (simpl; tauto).
  unfold finish.
  destruct (snd _ <? length optimizedText); [| exact Hnd].
  rewrite map_app. simpl. now apply NoDup_snoc.
Qed.

Lemma span_keys_distinct_witness :
  NoDup (map id [Scenario.brown; Scenario.quick]) /\
  NoDup (map piece_key
           (pieces_of (renderTextWithHighlights Scenario.fox
                         [Scenario.brown; Scenario.quick]))).
Proof.
  assert (H : NoDup (map id [Scenario.brown; Scenario.quick])).
  { simpl. constructor.
    - intros [E | []]. discriminate.
    - constructor; [intros [] | constructor]. }
  split; [exact H |].
  exact (@span_keys_distinct Scenario.fox [Scenario.brown; Scenario.quick] H).
Defined.

(** Equal ids give equal keys: the hypothesis of X7 is needed. *)
Lemma span_keys_repeat_with_ids :
  let a := mkComment 7%N (utf16 "ab") 0 2 (utf16 "one") Scenario.stamp in
  let b := mkComment 7%N (utf16 "ef") 4 6 (utf16 "two") Scenario.stamp in
  ~ NoDup (map piece_key
             (pieces_of (renderTextWithHighlights Scenario.alphabet [a; b]))).
Proof.
  simpl. intros H.
  inversion H as [| ? ? Hin _]; subst. apply Hin. simpl. tauto.
Qed.

Lemma slice_length (s : jsstring) (a b : nat) :
  length (slice s a b) = Nat.min (b - a) (length s - a).
Proof. unfold slice. now rewrite length_firstn, length_skipn. Qed.

Lemma slice_from_length (s : jsstring) (a : nat) :
  length (slice_from s a) = length s - a.
Proof. unfold slice_from. apply length_skipn. Qed.

Lemma nonempty_length (s : jsstring) : 0 < length s -> s <> [].
Proof. destruct s; simpl; [lia | discriminate]. Qed.

(** On ranges that follow one another inside the text, every span pushed
    has some text. *)
Lemma forEach_comment_nonempty (optimizedText : jsstring) (cs : list Comment) :
  forall index pieces lastIndex,
    chained lastIndex cs ->
    Forall (valid_range optimizedText) cs ->
    Forall (fun p => piece_content p <> []) pieces ->
    Forall (fun p => piece_content p <> [])
           (finish optimizedText
              (forEach_comment optimizedText cs index pieces lastIndex)).
Proof.
  induction cs as [| c rest IH];
    intros index pieces lastIndex Hch Hv Hp.
  - unfold finish. simpl.
    destruct (lastIndex <? length optimizedText) eqn:E; [| exact Hp].
    apply Nat.ltb_lt in E. apply Forall_app. split; [exact Hp |].
    constructor; [| constructor]. simpl.
    apply nonempty_length. rewrite slice_from_length. lia.
  - inversion Hch as [| ? ? ? Hcs Hse Hrest]; subst.
    inversion Hv as [| ? ? [Hne Hin] Hv']; subst.
    simpl forEach_comment. apply IH; try assumption.
    apply Forall_app. split.
    + destruct (lastIndex <? startOffset c) eqn:E; [| exact Hp].
      apply Nat.ltb_lt in E. apply Forall_app. split; [exact Hp |].
      constructor; [| constructor]. simpl.
      apply nonempty_length. rewrite slice_length. lia.
    + constructor; [| constructor]. simpl.
      apply nonempty_length. rewrite slice_length. lia.
Qed.

Lemma filter_truthy_nonempty (ss : list jsstring) :
  Forall (fun s => s <> []) ss -> filter truthy ss = ss.
Proof.
  induction 1 as [| s ss Hs _ IH]; simpl; [reflexivity |].
  destruct s; [contradiction | simpl; now rewrite IH].
Qed.

(** X8.  For a valid annotation set no rendered span is empty.  So every
    span holds one text node: the text nodes a selection can point into are
    the spans' texts, position by position. *)
Theorem valid_rendering_has_no_empty_span (optimizedText : jsstring)
        (comments : list Comment) :
  valid_annotations optimizedText comments ->
  comments <> [] ->
  let r := renderTextWithHighlights optimizedText comments in
  Forall (fun p => piece_content p <> []) (pieces_of r) /\
  text_nodes r = map piece_content (pieces_of r).
Proof.
  intros Hvalid Hne. destruct comments as [| c cs]; [contradiction |].
  cbv zeta. rewrite render_nonempty. simpl pieces_of. simpl text_nodes.
  assert (H : Forall (fun p => piece_content p <> [])
                (finish optimizedText
                   (forEach_comment optimizedText
                      (sortedComments (c :: cs)) 0 [] 0))).
  { apply forEach_comment_nonempty.
    - now apply sortedComments_chained with (sourceText := optimizedText).
    - eapply Permutation_Forall; [| exact (proj1 Hvalid)].
      unfold sortedComments. apply sort_asc_perm.
    - constructor. }
  split; [exact H |].
  apply filter_truthy_nonempty. now apply Forall_map.
Qed.

Lemma valid_rendering_has_no_empty_span_witness :
  valid_annotations Scenario.fox [Scenario.brown; Scenario.quick] /\
  text_nodes (renderTextWithHighlights Scenario.fox
                [Scenario.brown; Scenario.quick])
  = map piece_content
        (pieces_of (renderTextWithHighlights Scenario.fox
                      [Scenario.brown; Scenario.quick])).
Proof.
  split; [exact scenario_C_valid |].
  refine (proj2 (@valid_rendering_has_no_empty_span Scenario.fox
                   [Scenario.brown; Scenario.quick] scenario_C_valid _)).
  discriminate.
Defined.

Lemma concat_filter_truthy (ss : list jsstring) :
  concat (filter truthy ss) = concat ss.
Proof.
  induction ss as [| s ss IH]; simpl; [reflexivity |].
  destruct s; simpl; [exact IH | now rewrite IH].
Qed.

Lemma concat_piece_content (ps : list piece) :
  concat (map piece_content ps) = concat_segments (map segment_of_piece ps).
Proof.
  unfold concat_segments. rewrite map_map. f_equal.
  apply map_ext. now intros [k s | k t s].
Qed.

(** The text nodes of a rendering hold the text of its segments. *)
Lemma text_nodes_concat (r : rendered) :
  concat (text_nodes r) = concat_segments (segments r).
Proof.
  destruct r as [s | ps]; unfold text_nodes; rewrite concat_filter_truthy.
  - destruct s; simpl; [reflexivity |].
    unfold concat_segments. simpl. now rewrite app_nil_r.
  - apply concat_piece_content.
Qed.

(** X9.  For a valid annotation set the text nodes put in the page, read in
    document order, are the optimized text: highlighting adds no character
    and drops none. *)
Theorem page_text_is_optimizedText (optimizedText : jsstring)
        (comments : list Comment) :
  valid_annotations optimizedText comments ->
  concat (text_nodes (renderTextWithHighlights optimizedText comments))
  = optimizedText.
Proof.
  intros Hvalid.
  rewrite text_nodes_concat, render_is_scan_of_sorted. unfold spec_render.
  rewrite spec_scan_concat.
  - reflexivity.
  - now apply sortedComments_chained with (sourceText := optimizedText).
Qed.

Lemma page_text_is_optimizedText_witness :
  valid_annotations Scenario.fox [Scenario.brown; Scenario.quick] /\
  concat (text_nodes (renderTextWithHighlights Scenario.fox
                        [Scenario.brown; Scenario.quick]))
  = Scenario.fox.
Proof.
  split; [exact scenario_C_valid |].
  exact (@page_text_is_optimizedText Scenario.fox
           [Scenario.brown; Scenario.quick] scenario_C_valid).
Defined.

(** Overlapping comments break it: the shared characters are shown twice. *)
Lemma overlapping_comments_repeat_text :
  concat (text_nodes (renderTextWithHighlights Scenario.fox
                        [Scenario.quick; Scenario.ck_brow]))
  = utf16 "The quickick brown fox".
Proof. reflexivity. Qed.

(** ** Capturing the first selection *)

(** X10.  While no comment is committed the text is one text node.  For a
    selection dragged over the text, that is a range whose two boundary
    points are in that text node, with a text that is not blank, the
    offsets [handleSelection] stores are offsets into the optimized text:
    the text stored with them is the trimmed slice of the optimized text
    between them.  (A range with an element as container, as select-all
    makes, is not a range of this kind.) *)
Theorem first_selection_offsets_are_absolute (optimizedText : jsstring)
        (r : Dom.Range) (st : State) :
  comments st = [] ->
  Dom.startContainer r = 0 -> Dom.endContainer r = 0 ->
  trim (slice optimizedText (Dom.startOffset r) (Dom.endOffset r)) <> [] ->
  selectedRange (step optimizedText st (MouseUp (Some r)))
  = Some (SelectedRange.mk
            (trim (slice optimizedText (Dom.startOffset r) (Dom.endOffset r)))
            (Dom.startOffset r) (Dom.endOffset r)).
Proof.
  intros Hc Hs He Ht. unfold step. rewrite Hc.
  change (renderTextWithHighlights optimizedText []) with (RText optimizedText).
  assert (Hstr : range_toString (text_nodes (RText optimizedText)) r
                 = slice optimizedText (Dom.startOffset r) (Dom.endOffset r)).
  { unfold range_toString. rewrite Hs, He. simpl.
    destruct optimizedText; reflexivity. }
  rewrite handleSelection_offsets; rewrite Hstr; [reflexivity | exact Ht].
Qed.

Lemma first_selection_offsets_are_absolute_witness :
  selectedRange
    (step Scenario.fox initialState
          (MouseUp (Some (Dom.mkRange 0 3 0 10 Scenario.rect))))
  = Some (SelectedRange.mk (utf16 "quick") 3 10).
Proof.
  refine (@first_selection_offsets_are_absolute Scenario.fox
            (Dom.mkRange 0 3 0 10 Scenario.rect) initialState
            eq_refl eq_refl eq_refl _).
  discriminate.
Defined.

(** ** Offsets stay inside the text *)

Lemma forEach_comment_short (optimizedText : jsstring) (cs : list Comment) :
  forall index pieces lastIndex,
    Forall (fun p => length (piece_content p) <= length optimizedText) pieces ->
    Forall (fun p => length (piece_content p) <= length optimizedText)
           (finish optimizedText
              (forEach_comment optimizedText cs index pieces lastIndex)).
Proof.
  induction cs as [| c rest IH]; intros index pieces lastIndex Hp.
  - unfold finish. simpl.
    destruct (lastIndex <? length optimizedText); [| exact Hp].
    apply Forall_app. split; [exact Hp |].
    constructor; [| constructor]. simpl. rewrite slice_from_length. lia.
  - simpl forEach_comment. apply IH.
    apply Forall_app. split.
    + destruct (lastIndex <? startOffset c); [| exact Hp].
      apply Forall_app. split; [exact Hp |].
      constructor; [| constructor]. simpl. rewrite slice_length. lia.
    + constructor; [| constructor]. simpl. rewrite slice_length. lia.
Qed.

(** No text node of a rendering is longer than the text. *)
Lemma text_nodes_short (optimizedText : jsstring) (comments : list Comment) :
  Forall (fun n => length n <= length optimizedText)
         (text_nodes (renderTextWithHighlights optimizedText comments)).
Proof.
  apply Forall_forall. intros n Hn.
  destruct comments as [| c cs].
  - simpl in Hn. destruct (truthy optimizedText); simpl in Hn.
    + destruct Hn as [<- | []]. lia.
    + contradiction.
  - rewrite render_nonempty in Hn. simpl in Hn.
    apply filter_In in Hn. destruct Hn as [Hn _].
    apply in_map_iff in Hn. destruct Hn as [p [<- Hp]].
    pose proof (@forEach_comment_short optimizedText
                  (sortedComments (c :: cs)) 0 [] 0 (Forall_nil _)) as H.
    rewrite Forall_forall in H. now apply H.
Qed.

Lemma step_offsets_within (optimizedText : jsstring) (st : State) (g : gesture) :
  session_within optimizedText [g] st ->
  candidate_within optimizedText st ->
  Forall (offsets_within optimizedText) (comments st) ->
  candidate_within optimizedText (step optimizedText st g) /\
  Forall (offsets_within optimizedText) (comments (step optimizedText st g)).
Proof.
  intros [Hg _] Hc Hall.
  destruct g as [sel | env typed |].
  - split; [| simpl; now rewrite handleSelection_comments].
    unfold candidate_within in *. simpl.
    unfold handleSelection. destruct sel as [r |]; [| exact Hc].
    destruct (negb (truthy (trim (selection_toString _ (Some r)))));
      [exact Hc |].
    simpl. destruct Hg as [Hsc [Hec [Hso Heo]]].
    pose proof (text_nodes_short optimizedText (comments st)) as Hshort.
    rewrite Forall_forall in Hshort.
    split.
    + etransitivity; [exact Hso |]. apply Hshort. now apply nth_In.
    + etransitivity; [exact Heo |]. apply Hshort. now apply nth_In.
  - simpl. destruct (showCommentBox st); [| now split].
    unfold submit_gesture, CommentBox_handleSubmit.
    destruct (truthy (trim typed)); simpl; [| now split].
    destruct (handleCommentSubmit_cases env typed st)
      as [[c [Ht H]] | [[_ H] | [m [_ H]]]]; rewrite H; simpl;
      try (now split).
    split; [exact Hc |].
    apply Forall_app. split; [exact Hall |].
    constructor; [| constructor].
    destruct (try_submit_added _ _ _ Ht) as [sel [Hsel [_ [Hs [He _]]]]].
    unfold candidate_within in Hc. rewrite Hsel in Hc.
    unfold offsets_within. now rewrite Hs, He.
  - now split.
Qed.

(** X11.  When every selection of a session is a range over the text nodes
    shown at that time, every comment the session commits has both offsets
    between 0 and the length of the optimized text. *)
Theorem session_offsets_within (optimizedText : jsstring) (gs : list gesture) :
  forall st,
    session_within optimizedText gs st ->
    candidate_within optimizedText st ->
    Forall (offsets_within optimizedText) (comments st) ->
    Forall (offsets_within optimizedText)
           (comments (run optimizedText gs st)).
Proof.
  unfold run. induction gs as [| g gs IH]; intros st Hs Hc Hall.
  - exact Hall.
  - destruct Hs as [Hg Hrest].
    destruct (@step_offsets_within optimizedText st g) as [Hc' Hall'];
      try assumption.
    + now split.
    + simpl. now apply IH.
Qed.

Lemma session_offsets_within_witness :
  let gs := [ MouseUp (Some (Dom.mkRange 0 2 0 5 Scenario.rect));
              Submit (Scenario.accepted 1%N) (utf16 "middle") ] in
  session_within Scenario.alphabet gs initialState /\
  Forall (offsets_within Scenario.alphabet)
         (comments (run Scenario.alphabet gs initialState)).
Proof.
  assert (H : session_within Scenario.alphabet
                [ MouseUp (Some (Dom.mkRange 0 2 0 5 Scenario.rect));
                  Submit (Scenario.accepted 1%N) (utf16 "middle") ]
                initialState).
  { vm_compute. repeat split; lia. }
  split; [exact H |].
  exact (@session_offsets_within Scenario.alphabet _ initialState H I
           (Forall_nil _)).
Defined.

(** ** The older stand-alone component, continued *)

(** X13.  With one comment whose range is not inverted, the three strings
    [renderTextWithComments] cuts (before, highlighted, after) make up the
    text again. *)
Theorem legacy_single_round_trip (optimizedText : jsstring)
        (c : Legacy.Comment) :
  Legacy.startOffset c <= Legacy.endOffset c ->
  exists before highlighted after,
    Legacy.renderTextWithComments optimizedText [c]
    = Some (Legacy.Fragment before highlighted (Legacy.comment c) after) /\
    before ++ highlighted ++ after = optimizedText.
Proof.
  intros Hle. do 3 eexists. split; [apply legacy_render_single |].
  rewrite slice_then_rest by exact Hle.
  rewrite slice_then_rest by lia. reflexivity.
Qed.

Lemma legacy_single_round_trip_witness :
  exists before highlighted after,
    Legacy.renderTextWithComments Scenario.fox
      [Legacy.mkComment (utf16 "quick") 4 9 (utf16 "adj") 1]
    = Some (Legacy.Fragment before highlighted (utf16 "adj") after) /\
    before ++ highlighted ++ after = Scenario.fox.
Proof.
  refine (@legacy_single_round_trip Scenario.fox
            (Legacy.mkComment (utf16 "quick") 4 9 (utf16 "adj") 1) _).
  simpl. lia.
Defined.

(** An inverted range repeats a part of the text. *)
Lemma legacy_inverted_range_repeats_text :
  Legacy.renderTextWithComments Scenario.alphabet
    [Legacy.mkComment (utf16 "x") 5 2 (utf16 "note") 1]
  = Some (Legacy.Fragment (utf16 "abcde") [] (utf16 "note") (utf16 "cdefghij")).
Proof. reflexivity. Qed.

(** X14.  [CommentPopover]'s save button, pressed with a candidate
    selection: the comment is appended whatever was typed (blank or not),
    the candidate is dropped and the popover closed; a save without a new
    selection adds nothing more. *)
Theorem legacy_handleSave_once (dateNow : N) (typed : jsstring)
        (st : Legacy.State) (sel : SelectedRange.t) :
  Legacy.selectedText st = Some sel ->
  let st' := Legacy.handleSave dateNow typed st in
  Legacy.comments st'
  = Legacy.comments st
    ++ [Legacy.mkComment (SelectedRange.text sel)
          (SelectedRange.startOffset sel) (SelectedRange.endOffset sel)
          typed dateNow] /\
  Legacy.selectedText st' = None /\
  Legacy.showCommentPopover st' = false /\
  (forall dateNow' typed',
      Legacy.comments (Legacy.handleSave dateNow' typed' st')
      = Legacy.comments st').
Proof.
  intros Hsel. simpl.
  unfold Legacy.handleSave, Legacy.handleSaveComment. simpl.
  rewrite Hsel. repeat split.
Qed.

Lemma legacy_handleSave_once_witness :
  let st := Legacy.mkState [] (Some (SelectedRange.mk (utf16 "fox") 16 19))
                           true (mkPosition 0 0) in
  Legacy.comments (Legacy.handleSave 1 [] st)
  = [Legacy.mkComment (utf16 "fox") 16 19 [] 1].
Proof.
  exact (proj1 (@legacy_handleSave_once 1 []
                  (Legacy.mkState []
                     (Some (SelectedRange.mk (utf16 "fox") 16 19))
                     true (mkPosition 0 0))
                  _ eq_refl)).
Defined.

(** ** The page *)

Lemma present_some (o : option jsstring) :
  PromptOptimizer.present o = true -> o <> None.
Proof. destruct o; [discriminate | discriminate]. Qed.


(** X16.  [handleOptimizeWithFeedback]: without a session id it only sets
    its error message, whatever the server would answer.  In every case the
    input and the session id are kept; either an error message is set and
    the prompt, the comments and the scores are the old ones, or the error
    is cleared, the comments are emptied and the loading flag is false. *)
Theorem handleOptimizeWithFeedback_outcome (typeError : jsstring)
        (answer : PromptOptimizer.fetched) (st : PromptOptimizer.State) :
  let st' := PromptOptimizer.handleOptimizeWithFeedback typeError answer st in
  (PromptOptimizer.present (PromptOptimizer.sessionId st) = false ->
   st' = PromptOptimizer.setError
           (Some (utf16 "No active optimization session. Please optimize first."))
           st) /\
  PromptOptimizer.input st' = PromptOptimizer.input st /\
  PromptOptimizer.sessionId st' = PromptOptimizer.sessionId st /\
  ((PromptOptimizer.error st' <> None /\
    PromptOptimizer.optimizedPrompt st' = PromptOptimizer.optimizedPrompt st /\
    PromptOptimizer.comments st' = PromptOptimizer.comments st /\
    PromptOptimizer.response st' = PromptOptimizer.response st)
   \/ (PromptOptimizer.error st' = None /\
       PromptOptimizer.comments st' = [] /\
       PromptOptimizer.isLoading st' = false)).
Proof.
  unfold PromptOptimizer.handleOptimizeWithFeedback.
  destruct (PromptOptimizer.present (PromptOptimizer.sessionId st)); simpl.
  - split; [discriminate |].
    destruct answer as [m | [data |]]; simpl.
    + repeat split. left. repeat split. discriminate.
    + destruct (PromptOptimizer.present (PromptOptimizer.data_error data))
        eqn:E.
      * simpl. repeat split. left. repeat split. now apply present_some.
      * unfold PromptOptimizer.accept_feedback.
        destruct (PromptOptimizer.result data),
                 (PromptOptimizer.metrics data); simpl; repeat split;
          right; repeat split.
    + repeat split. left. repeat split. discriminate.
  - repeat split. left. repeat split. discriminate.
Qed.

(** X17.  [handleDownloadLog] changes nothing but the error message, and
    not even that when it succeeds.  A file is saved only when there is a
    session id and the server sent the log; it is named after the
    session. *)
Theorem handleDownloadLog_outcome (answer : PromptOptimizer.downloaded)
        (st : PromptOptimizer.State) :
  let st' := fst (PromptOptimizer.handleDownloadLog answer st) in
  let file := snd (PromptOptimizer.handleDownloadLog answer st) in
  ((st' = st /\ file <> None) \/
   (exists m, st' = PromptOptimizer.setError (Some m) st /\ file = None)) /\
  (forall name blob,
      file = Some (name, blob) ->
      answer = PromptOptimizer.DownloadBlob blob /\
      exists session,
        PromptOptimizer.sessionId st = Some session /\ session <> [] /\
        name = PromptOptimizer.log_name session).
Proof.
  unfold PromptOptimizer.handleDownloadLog.
  destruct (PromptOptimizer.sessionId st) as [session |]; simpl.
  - destruct session as [| ch session]; simpl.
    + split; [right; eexists; now split | discriminate].
    + destruct answer as [m | e | blob]; simpl.
      * split; [right; eexists; now split | discriminate].
      * split; [right; eexists; now split | discriminate].
      * split; [left; split; [reflexivity | discriminate] |].
        intros name blob' H. injection H as <- <-.
        split; [reflexivity |]. eexists. repeat split. discriminate.
  - split; [right; eexists; now split | discriminate].
Qed.

Lemma handleOptimize_keeps_or_clears (answer : PromptOptimizer.fetched)
      (st : PromptOptimizer.State) :
  PromptOptimizer.optimizedPrompt (PromptOptimizer.handleOptimize answer st)
  = PromptOptimizer.optimizedPrompt st
  \/ PromptOptimizer.comments (PromptOptimizer.handleOptimize answer st) = [].
Proof.
  unfold PromptOptimizer.handleOptimize.
  destruct answer as [m | [data |]]; simpl; try (now left).
  destruct (PromptOptimizer.present (PromptOptimizer.data_error data));
    [now left | now right].
Qed.

Lemma handleOptimizeWithFeedback_keeps_or_clears (typeError : jsstring)
      (answer : PromptOptimizer.fetched) (st : PromptOptimizer.State) :
  PromptOptimizer.optimizedPrompt
    (PromptOptimizer.handleOptimizeWithFeedback typeError answer st)
  = PromptOptimizer.optimizedPrompt st
  \/ PromptOptimizer.comments
       (PromptOptimizer.handleOptimizeWithFeedback typeError answer st) = [].
Proof.
  unfold PromptOptimizer.handleOptimizeWithFeedback.
  destruct (PromptOptimizer.present (PromptOptimizer.sessionId st)); simpl;
    [| now left].
  destruct answer as [m | [data |]]; simpl; try (now left).
  destruct (PromptOptimizer.present (PromptOptimizer.data_error data));
    [now left | now right].
Qed.

Lemma handleDownloadLog_frame (answer : PromptOptimizer.downloaded)
      (st : PromptOptimizer.State) :
  let st' := fst (PromptOptimizer.handleDownloadLog answer st) in
  PromptOptimizer.input st' = PromptOptimizer.input st /\
  PromptOptimizer.optimizedPrompt st' = PromptOptimizer.optimizedPrompt st /\
  PromptOptimizer.isLoading st' = PromptOptimizer.isLoading st /\
  PromptOptimizer.sessionId st' = PromptOptimizer.sessionId st /\
  PromptOptimizer.comments st' = PromptOptimizer.comments st /\
  PromptOptimizer.response st' = PromptOptimizer.response st.
Proof.
  unfold PromptOptimizer.handleDownloadLog.
  destruct (PromptOptimizer.sessionId st) as [session |] eqn:E; simpl.
  - destruct (truthy session); [destruct answer |]; simpl;
      rewrite ?E; repeat split.
  - rewrite ?E. repeat split.
Qed.

(** X18.  Whatever happens to the page, comments never outlive the text
    they were made on: an event that changes the optimized prompt leaves
    the comment list empty. *)
Theorem prompt_change_clears_comments (st : PromptOptimizer.State)
        (e : PromptOptimizer.event) :
  PromptOptimizer.optimizedPrompt (PromptOptimizer.step st e)
  <> PromptOptimizer.optimizedPrompt st ->
  PromptOptimizer.comments (PromptOptimizer.step st e) = [].
Proof.
  destruct e as [v | answer | typeError answer | answer | | c]; simpl.
  - intros H. now contradiction H.
  - destruct (handleOptimize_keeps_or_clears answer st) as [Hp | Hc];
      [intros H; now contradiction H | intros _; exact Hc].
  - destruct (handleOptimizeWithFeedback_keeps_or_clears typeError answer st)
      as [Hp | Hc]; [intros H; now contradiction H | intros _; exact Hc].
  - destruct (handleDownloadLog_frame answer st) as [_ [Hp _]].
    intros H. now contradiction H.
  - reflexivity.
  - destruct (PromptOptimizer.shows_prompt st); intros H; now contradiction H.
Qed.

Lemma prompt_change_clears_comments_witness :
  let st := PromptOptimizer.mkState (utf16 "sort it") (utf16 "Sort the list.")
              false (Some (utf16 "s1")) None [Scenario.quick] None in
  let e := PromptOptimizer.Optimize
             (PromptOptimizer.Json
                (Some (PromptOptimizer.mkData None
                         (Some (utf16 "Sort the given list.")) None None))) in
  PromptOptimizer.optimizedPrompt (PromptOptimizer.step st e)
  <> PromptOptimizer.optimizedPrompt st /\
  PromptOptimizer.comments (PromptOptimizer.step st e) = [].
Proof.
  assert (H : PromptOptimizer.optimizedPrompt
                (PromptOptimizer.step
                   (PromptOptimizer.mkState (utf16 "sort it")
                      (utf16 "Sort the list.") false (Some (utf16 "s1")) None
                      [Scenario.quick] None)
                   (PromptOptimizer.Optimize
                      (PromptOptimizer.Json
                         (Some (PromptOptimizer.mkData None
                                  (Some (utf16 "Sort the given list."))
                                  None None)))))
              <> utf16 "Sort the list.") by discriminate.
  split; [exact H |].
  exact (@prompt_change_clears_comments _ _ H).
Defined.

Lemma step_at_rest (st : PromptOptimizer.State) (e : PromptOptimizer.event) :
  PromptOptimizer.at_rest st ->
  PromptOptimizer.at_rest (PromptOptimizer.step st e).
Proof.
  unfold PromptOptimizer.at_rest. intros [Hl [Hs Hc]].
  destruct e as [v | answer | typeError answer | answer | | c]; simpl.
  - auto.
  - unfold PromptOptimizer.handleOptimize.
    destruct answer as [m | [data |]]; simpl; auto.
    destruct (PromptOptimizer.present (PromptOptimizer.data_error data));
      simpl; auto.
    unfold PromptOptimizer.accept_optimized.
    destruct (PromptOptimizer.result data),
             (PromptOptimizer.present (PromptOptimizer.session_id data)) eqn:E,
             (PromptOptimizer.metrics data); simpl; auto.
  - unfold PromptOptimizer.handleOptimizeWithFeedback.
    destruct (PromptOptimizer.present (PromptOptimizer.sessionId st)) eqn:Ep;
      simpl;
      [| repeat split; auto; destruct Hs as [Hs | Hs];
         [now left | discriminate]].
    rewrite <- Ep in Hs.
    destruct answer as [m | [data |]]; simpl; auto.
    destruct (PromptOptimizer.present (PromptOptimizer.data_error data));
      simpl; auto.
    unfold PromptOptimizer.accept_feedback.
    destruct (PromptOptimizer.result data), (PromptOptimizer.metrics data);
      simpl; auto.
  - destruct (handleDownloadLog_frame answer st)
      as [_ [Hp [Hl' [Hs' [Hc' _]]]]].
    simpl in *. rewrite Hp, Hl', Hs', Hc'. auto.
  - auto.
  - destruct (PromptOptimizer.shows_prompt st) eqn:E; auto.
    simpl. repeat split; auto.
    intros Hp. unfold PromptOptimizer.shows_prompt in E.
    rewrite Hp in E. discriminate.
Qed.

(** X19.  Between events, from the first render on: the loading flag is
    false, the session id is null or a non-empty value, and there are
    comments only while a prompt is shown. *)
Theorem page_at_rest (es : list PromptOptimizer.event) :
  forall st,
    PromptOptimizer.at_rest st ->
    PromptOptimizer.at_rest (PromptOptimizer.run es st).
Proof.
  unfold PromptOptimizer.run.
  induction es as [| e es IH]; intros st H; simpl.
  - exact H.
  - apply IH. now apply step_at_rest.
Qed.

Lemma page_at_rest_witness :
  PromptOptimizer.at_rest PromptOptimizer.initialState /\
  PromptOptimizer.at_rest
    (PromptOptimizer.run
       [ PromptOptimizer.TypeInput (utf16 "sort it");
         PromptOptimizer.Optimize
           (PromptOptimizer.Json
              (Some (PromptOptimizer.mkData None (Some (utf16 "Sort the list."))
                       (Some (utf16 "s1")) None)));
         PromptOptimizer.CommentAdded Scenario.quick;
         PromptOptimizer.NewSession ]
       PromptOptimizer.initialState).
Proof.
  assert (H : PromptOptimizer.at_rest PromptOptimizer.initialState).
  { repeat split. now left. }
  split; [exact H |].
  exact (@page_at_rest _ PromptOptimizer.initialState H).
Defined.

(** ** More on the two components *)

(** X12.  [renderTextWithComments] returns an element exactly when there is
    at most one comment; from two comments on it throws. *)
Theorem legacy_render_returns_iff_at_most_one (optimizedText : jsstring)
        (cs : list Legacy.Comment) :
  (exists el, Legacy.renderTextWithComments optimizedText cs = Some el)
  <-> length cs <= 1.
Proof.
  destruct cs as [| c1 [| c2 cs]]; simpl.
  - split; [lia | intros _; now eexists].
  - split; [lia | intros _].
    eexists. apply legacy_render_single.
  - rewrite legacy_render_two_throws. split.
    + intros [el H]. discriminate.
    + lia.
Qed.

Lemma legacy_render_returns_iff_at_most_one_witness :
  length [Legacy.mkComment (utf16 "quick") 4 9 (utf16 "adj") 1] <= 1 /\
  exists el,
    Legacy.renderTextWithComments Scenario.fox
      [Legacy.mkComment (utf16 "quick") 4 9 (utf16 "adj") 1] = Some el.
Proof.
  split; [simpl; lia |].
  apply (proj2 (legacy_render_returns_iff_at_most_one Scenario.fox
                  [Legacy.mkComment (utf16 "quick") 4 9 (utf16 "adj") 1])).
  simpl. lia.
Defined.

Lemma handleOptimizeWithFeedback_outcome_witness :
  PromptOptimizer.present
    (PromptOptimizer.sessionId PromptOptimizer.initialState) = false /\
  PromptOptimizer.handleOptimizeWithFeedback (utf16 "TypeError")
    (PromptOptimizer.Json None) PromptOptimizer.initialState
  = PromptOptimizer.setError
      (Some (utf16 "No active optimization session. Please optimize first."))
      PromptOptimizer.initialState.
Proof.
  split; [reflexivity |].
  exact (proj1 (handleOptimizeWithFeedback_outcome (utf16 "TypeError")
                  (PromptOptimizer.Json None) PromptOptimizer.initialState)
               eq_refl).
Defined.

Lemma handleDownloadLog_outcome_witness :
  let st := PromptOptimizer.mkState [] (utf16 "Sort the list.") false
              (Some (utf16 "s1")) None [] None in
  snd (PromptOptimizer.handleDownloadLog
         (PromptOptimizer.DownloadBlob [104%N; 105%N]) st)
  = Some (utf16 "session_s1_log.txt", [104%N; 105%N]) /\
  exists session,
    PromptOptimizer.sessionId st = Some session /\ session <> [] /\
    utf16 "session_s1_log.txt" = PromptOptimizer.log_name session.
Proof.
  split; [reflexivity |].
  exact (proj2 (proj2 (handleDownloadLog_outcome
                         (PromptOptimizer.DownloadBlob [104%N; 105%N])
                         (PromptOptimizer.mkState [] (utf16 "Sort the list.")
                            false (Some (utf16 "s1")) None [] None))
                      (utf16 "session_s1_log.txt") [104%N; 105%N] eq_refl)).
Defined.

(** ** Pressing Add while a request is pending *)

Lemma pending_type (optimizedText : jsstring) (l : Pending.live)
      (v : jsstring) :
  showCommentBox (Pending.ui l) = true ->
  Pending.step optimizedText l (Pending.Type_ v)
  = Pending.mkLive (Pending.ui l) v (Pending.in_flight l).
Proof. intros H. simpl. now rewrite H. Qed.

Lemma pending_press_add (optimizedText : jsstring) (l : Pending.live) :
  showCommentBox (Pending.ui l) = true ->
  truthy (trim (Pending.typed l)) = true ->
  Pending.step optimizedText l Pending.PressAdd
  = Pending.mkLive (Pending.ui l) []
      (Pending.in_flight l
       ++ [Pending.mkRequest (selectedRange (Pending.ui l)) (Pending.typed l)]).
Proof. intros H Ht. simpl. now rewrite H, Ht. Qed.

(** X20.  Add is not held back while a request is pending: the box stays
    open, with its text area emptied, until the answer arrives.  When a
    second comment is typed and Add pressed again before that, a second
    request is sent for the same candidate selection, and when both are
    accepted the list gains two comments with the same selected text and
    offsets. *)
Theorem add_pressed_twice_commits_twice (optimizedText : jsstring)
        (st : State) (sel : SelectedRange.t) (typed1 typed2 : jsstring)
        (i1 i2 : comment_id) (now1 now2 : jsstring) :
  showCommentBox st = true ->
  selectedRange st = Some sel ->
  truthy (trim typed1) = true ->
  truthy (trim typed2) = true ->
  let accepted i now :=
    mkEnv (Response true (mkData None true (Some i))) now [] in
  let pending :=
    Pending.run optimizedText
      [ Pending.Type_ typed1; Pending.PressAdd;
        Pending.Type_ typed2; Pending.PressAdd ]
      (Pending.mkLive st [] []) in
  let answered :=
    Pending.run optimizedText
      [ Pending.Answer 0 (accepted i1 now1);
        Pending.Answer 0 (accepted i2 now2) ]
      pending in
  (showCommentBox (Pending.ui pending) = true /\
   Pending.typed pending = [] /\
   comments (Pending.ui pending) = comments st /\
   Pending.in_flight pending
   = [ Pending.mkRequest (Some sel) typed1;
       Pending.mkRequest (Some sel) typed2 ]) /\
  (comments (Pending.ui answered)
   = comments st
     ++ [ mkComment i1 (SelectedRange.text sel)
            (SelectedRange.startOffset sel) (SelectedRange.endOffset sel)
            typed1 now1;
          mkComment i2 (SelectedRange.text sel)
            (SelectedRange.startOffset sel) (SelectedRange.endOffset sel)
            typed2 now2 ] /\
   showCommentBox (Pending.ui answered) = false /\
   Pending.in_flight answered = []).
Proof.
  intros Hopen Hsel H1 H2. cbv zeta.
  assert (Hp : Pending.run optimizedText
                 [ Pending.Type_ typed1; Pending.PressAdd;
                   Pending.Type_ typed2; Pending.PressAdd ]
                 (Pending.mkLive st [] [])
               = Pending.mkLive st []
                   [ Pending.mkRequest (Some sel) typed1;
                     Pending.mkRequest (Some sel) typed2 ]).
  { unfold Pending.run. cbn [fold_left].
    rewrite pending_type with (l := Pending.mkLive st [] [])
      by exact Hopen.
    cbn [Pending.ui Pending.typed Pending.in_flight].
    rewrite pending_press_add with (l := Pending.mkLive st typed1 [])
      by assumption.
    cbn [Pending.ui Pending.typed Pending.in_flight app].
    rewrite pending_type by exact Hopen.
    cbn [Pending.ui Pending.typed Pending.in_flight].
    rewrite pending_press_add by assumption.
    cbn [Pending.ui Pending.typed Pending.in_flight app].
    now rewrite Hsel. }
  rewrite Hp. split.
  - repeat split. exact Hopen.
  - unfold Pending.run. cbn [fold_left].
    unfold Pending.step, Pending.unmount_if_closed, Pending.complete,
      try_submit.
    simpl. rewrite <- app_assoc. repeat split.
Qed.

Lemma add_pressed_twice_commits_twice_witness :
  let st := Scenario.editing [] (SelectedRange.mk (utf16 "fox") 16 19) in
  let accepted i :=
    mkEnv (Response true (mkData None true (Some i))) Scenario.stamp [] in
  comments
    (Pending.ui
       (Pending.run Scenario.fox
          [ Pending.Answer 0 (accepted 1%N); Pending.Answer 0 (accepted 2%N) ]
          (Pending.run Scenario.fox
             [ Pending.Type_ (utf16 "animal"); Pending.PressAdd;
               Pending.Type_ (utf16 "again"); Pending.PressAdd ]
             (Pending.mkLive st [] []))))
  = [ mkComment 1%N (utf16 "fox") 16 19 (utf16 "animal") Scenario.stamp;
      mkComment 2%N (utf16 "fox") 16 19 (utf16 "again") Scenario.stamp ].
Proof.
  exact (proj1 (proj2 (@add_pressed_twice_commits_twice Scenario.fox
                         (Scenario.editing []
                            (SelectedRange.mk (utf16 "fox") 16 19))
                         (SelectedRange.mk (utf16 "fox") 16 19)
                         (utf16 "animal") (utf16 "again") 1%N 2%N
                         Scenario.stamp Scenario.stamp
                         eq_refl eq_refl eq_refl eq_refl))).
Defined.
